(** * LuaScriptRuntime.h: the Lua scripting-runtime bridge

    A shallow embedding of [code/components/citizen-scripting-lua/include/
    LuaScriptRuntime.h]: the engine-state holder [fx::LuaStateHolder] and the
    inline members of [fx::LuaScriptRuntime], over an explicit model of the
    process state they act on (the live Lua states, the rpmalloc heaps and the
    hidden state of [rand()]).

    C++ objects are records; a member function that mutates [this] takes the
    object and returns the updated one.  Pointers are [option]s ([None] is
    [nullptr]).  A computation that touches the engine lives in the monad [M]:
    it threads the process state and returns [None] where the C++ program has
    undefined behaviour (a null or dangling engine state, a double release). *)

From Stdlib Require Import ZArith String.
From stdpp Require Import base option list sorting gmap.

(** ** The scripting engine, as far as the header uses it *)

Module Engine.

(** Addresses.  [lua_State*] and [void*] are nullable. *)
Definition lua_State_ptr : Type := option positive.
Definition void_ptr : Type := option positive.

(** The allocator a state was created with: Lua's default [l_alloc]
    ([luaL_newstate]) or rpmalloc on a first-class heap. *)
Inductive Allocator : Type :=
  | l_alloc
  | Lua_rpmalloc (heap : positive).

(** Collector mode of a state ([KGC_INC] is how every Lua 5.4 state starts). *)
Inductive GCKind : Type := KGC_INC | KGC_GEN.

(** Values on the Lua stack. *)
Inductive TValue : Type :=
  | LUA_TNIL
  | LUA_TBOOLEAN (b : bool)
  | LUA_TNUMBER (n : Z)
  | LUA_TSTRING (s : string).

Record EngineState : Type := {
  es_frealloc : Allocator;
  es_gckind : GCKind;
  es_stack : list TValue;  (* top of the stack first *)
}.

(** The process state. *)
Record World : Type := {
  w_states : gmap positive EngineState;  (* live engine states, by address *)
  w_heaps : gset positive;               (* live rpmalloc heaps *)
  w_limit : nat;                         (* engine states the memory can hold *)
  w_rand_calls : nat;                    (* calls made to rand() so far *)
}.

Definition set_states (f : gmap positive EngineState → gmap positive EngineState)
    (w : World) : World :=
  {| w_states := f (w_states w); w_heaps := w_heaps w;
     w_limit := w_limit w; w_rand_calls := w_rand_calls w |}.

Definition set_heaps (f : gset positive → gset positive) (w : World) : World :=
  {| w_states := w_states w; w_heaps := f (w_heaps w);
     w_limit := w_limit w; w_rand_calls := w_rand_calls w |}.

Definition set_rand_calls (n : nat) (w : World) : World :=
  {| w_states := w_states w; w_heaps := w_heaps w;
     w_limit := w_limit w; w_rand_calls := n |}.

(** State and failure. *)
Definition M (A : Type) : Type := World → option (A * World).

Definition ret {A} (a : A) : M A := λ w, Some (a, w).

Definition bind {A B} (c : M A) (k : A → M B) : M B :=
  λ w, match c w with
       | Some (a, w') => k a w'
       | None => None
       end.

(** Undefined behaviour. *)
Definition crash {A} : M A := λ _, None.

Definition get_world : M World := λ w, Some (w, w).

Definition modify_world (f : World → World) : M unit := λ w, Some (tt, f w).

Declare Scope engine_scope.
Delimit Scope engine_scope with engine.
Notation "'let*' x ':=' c 'in' k" := (bind c (λ x, k))
  (at level 10, x pattern, c at level 100, k at level 200) : engine_scope.
Notation "c ';;' k" := (bind c (λ _, k))
  (at level 100, k at level 200, right associativity) : engine_scope.
Local Open Scope engine_scope.

(** [lua.h] *)
Definition LUA_GCGEN : Z := 10.
Definition LUA_GCINC : Z := 11.

Definition new_state (f : Allocator) : EngineState :=
  {| es_frealloc := f; es_gckind := KGC_INC; es_stack := [] |}.

Definition gckind_code (k : GCKind) : Z :=
  match k with KGC_INC => LUA_GCINC | KGC_GEN => LUA_GCGEN end.

(** [luaL_newstate()]: a new state on the default allocator, or [NULL] when
    memory is exhausted. *)
Definition luaL_newstate : M lua_State_ptr :=
  let* w := get_world in
  if decide (size (w_states w) < w_limit w) then
    let L := fresh (dom (w_states w)) in
    modify_world (set_states (insert L (new_state l_alloc)));;
    ret (Some L)
  else ret None.

(** [lua_gc(L, what, ...)] for the two mode switches; it returns the previous
    mode.  The other options do not change the mode. *)
Definition lua_gc (L : lua_State_ptr) (what data data2 : Z) : M Z :=
  let* w := get_world in
  match L with
  | None => crash
  | Some l =>
      match w_states w !! l with
      | None => crash
      | Some st =>
          let switch k :=
            modify_world (set_states (insert l
              {| es_frealloc := es_frealloc st; es_gckind := k;
                 es_stack := es_stack st |}));;
            ret (gckind_code (es_gckind st)) in
          if (what =? LUA_GCGEN)%Z then switch KGC_GEN
          else if (what =? LUA_GCINC)%Z then switch KGC_INC
          else ret 0%Z
      end
  end.

(** [lua_close(L)]: destroys the state and frees all its memory. *)
Definition lua_close (L : lua_State_ptr) : M unit :=
  let* w := get_world in
  match L with
  | None => crash
  | Some l =>
      match w_states w !! l with
      | None => crash
      | Some _ => modify_world (set_states (delete l))
      end
  end.

(** [lua_pushnil(L)] *)
Definition lua_pushnil (L : lua_State_ptr) : M unit :=
  let* w := get_world in
  match L with
  | None => crash
  | Some l =>
      match w_states w !! l with
      | None => crash
      | Some st =>
          modify_world (set_states (insert l
            {| es_frealloc := es_frealloc st; es_gckind := es_gckind st;
               es_stack := LUA_TNIL :: es_stack st |}))
      end
  end.

End Engine.

Import Engine.
Local Open Scope engine_scope.

(** ** [fx::LuaStateHolder] *)

Module LuaStateHolder.

Record t : Type := {
  m_state : lua_State_ptr;
  rpmalloc_data : void_ptr;  (* nullptr throughout when rpmalloc is not used *)
}.

(** Modelled from the spec: the body of [lua_rpmalloc_state] is not in the
    header, which documents it as "Create a lua_State instance with a rpmalloc
    allocator".  It acquires a heap, creates the state on it and hands the heap
    back through [opaque]; when no state can be created it returns [NULL] and
    leaves [opaque] as it was. *)
Definition lua_rpmalloc_state (opaque : void_ptr) : M (lua_State_ptr * void_ptr) :=
  let* w := get_world in
  if decide (size (w_states w) < w_limit w) then
    let heap := fresh (w_heaps w) in
    let L := fresh (dom (w_states w)) in
    modify_world (set_heaps (union {[heap]}));;
    modify_world (set_states (insert L (new_state (Lua_rpmalloc heap))));;
    ret (Some L, Some heap)
  else ret (None, opaque).

(** Modelled from the spec: the body of [lua_rpmalloc_free] is not in the
    header, which documents it as "Free/Dispose any additional resources
    associated with the Lua state".  It releases the heap [opaque] points to;
    a null [opaque] has nothing to release, and releasing a heap that is not
    live is undefined. *)
Definition lua_rpmalloc_free (opaque : void_ptr) : M unit :=
  let* w := get_world in
  match opaque with
  | None => ret tt
  | Some heap =>
      if decide (heap ∈ w_heaps w) then
        modify_world (set_heaps (λ hs, hs ∖ {[heap]}))
      else crash
  end.

Section Build.

(** [#if defined(LUA_USE_RPMALLOC)], which the header defines on [_WIN32]. *)
Variable LUA_USE_RPMALLOC : bool.

(** [LuaStateHolder()] *)
Definition ctor : M t :=
  let* this :=
    (if LUA_USE_RPMALLOC then
       let* (L, opaque) := lua_rpmalloc_state None in
       ret {| m_state := L; rpmalloc_data := opaque |}
     else
       let* L := luaL_newstate in
       ret {| m_state := L; rpmalloc_data := None |}) in
  lua_gc (m_state this) LUA_GCGEN 0 0;;
  ret this.

(** [Close()] *)
Definition Close (this : t) : M t :=
  match m_state this with
  | Some _ =>
      lua_close (m_state this);;
      let* this :=
        (if LUA_USE_RPMALLOC then
           lua_rpmalloc_free (rpmalloc_data this);;
           ret {| m_state := m_state this; rpmalloc_data := None |}
         else ret this) in
      ret {| m_state := None; rpmalloc_data := rpmalloc_data this |}
  | None => ret this
  end.

(** [~LuaStateHolder()] *)
Definition dtor (this : t) : M unit :=
  Close this;;
  ret tt.

(** [operator lua_State*()] and [Get()] *)
Definition to_lua_State (this : t) : lua_State_ptr := m_state this.

Definition Get (this : t) : lua_State_ptr := m_state this.

End Build.

End LuaStateHolder.

(** ** [fx::LuaScriptRuntime] *)

(** Active Lua profiler state. *)
Module LuaProfilingMode.

Inductive t : Type :=
  | None
  | Setup
  | Profiling
  | Shutdown.

End LuaProfilingMode.

(** [const char*] *)
Definition c_str : Type := option string.

(** A [std::function<F>] slot is empty or holds a target; [operator bool]
    tells which. *)
Definition std_function (F : Type) : Type := option F.

Definition callable {F} (f : std_function F) : bool :=
  match f with Some _ => true | None => false end.

(** The resource host: [GetResourceName(char** out)] is given the slot's
    content and says what the slot holds afterwards. *)
Record IScriptHostWithResourceData : Type := {
  host_GetResourceName : c_str → c_str;
}.

Module LuaScriptRuntime.

Definition TCallRefRoutine : Type :=
  Z → list Byte.byte → M (option (list Byte.byte)).
Definition TDuplicateRefRoutine : Type := Z → M Z.
Definition TDeleteRefRoutine : Type := Z → M unit.
Definition TStackTraceRoutine : Type := void_ptr → void_ptr → M (list Byte.byte).
Definition TResultAsObjectRoutine : Type := lua_State_ptr → string → M unit.

(** The members the functions below read or write. *)
Record t : Type := {
  m_state : LuaStateHolder.t;
  m_resourceHost : option IScriptHostWithResourceData;
  m_callRefRoutine : std_function TCallRefRoutine;
  m_duplicateRefRoutine : std_function TDuplicateRefRoutine;
  m_deleteRefRoutine : std_function TDeleteRefRoutine;
  m_stackTraceRoutine : std_function TStackTraceRoutine;
  m_resultAsObjectRoutine : std_function TResultAsObjectRoutine;
  m_boundaryRoutine : Z;
  m_instanceId : Z;
  m_nativesDir : string;
  m_profilingMode : LuaProfilingMode.t;
  m_nonExistentNatives : gset N;
  m_pendingBookmarks : list (Z * Z);  (* (due time, bookmark identifier) *)
}.

Definition with_callRefRoutine (r : std_function TCallRefRoutine) (this : t) : t :=
  {| m_state := m_state this; m_resourceHost := m_resourceHost this;
     m_callRefRoutine := r;
     m_duplicateRefRoutine := m_duplicateRefRoutine this;
     m_deleteRefRoutine := m_deleteRefRoutine this;
     m_stackTraceRoutine := m_stackTraceRoutine this;
     m_resultAsObjectRoutine := m_resultAsObjectRoutine this;
     m_boundaryRoutine := m_boundaryRoutine this;
     m_instanceId := m_instanceId this; m_nativesDir := m_nativesDir this;
     m_profilingMode := m_profilingMode this;
     m_nonExistentNatives := m_nonExistentNatives this;
     m_pendingBookmarks := m_pendingBookmarks this |}.

Definition with_duplicateRefRoutine (r : std_function TDuplicateRefRoutine)
    (this : t) : t :=
  {| m_state := m_state this; m_resourceHost := m_resourceHost this;
     m_callRefRoutine := m_callRefRoutine this;
     m_duplicateRefRoutine := r;
     m_deleteRefRoutine := m_deleteRefRoutine this;
     m_stackTraceRoutine := m_stackTraceRoutine this;
     m_resultAsObjectRoutine := m_resultAsObjectRoutine this;
     m_boundaryRoutine := m_boundaryRoutine this;
     m_instanceId := m_instanceId this; m_nativesDir := m_nativesDir this;
     m_profilingMode := m_profilingMode this;
     m_nonExistentNatives := m_nonExistentNatives this;
     m_pendingBookmarks := m_pendingBookmarks this |}.

Definition with_deleteRefRoutine (r : std_function TDeleteRefRoutine)
    (this : t) : t :=
  {| m_state := m_state this; m_resourceHost := m_resourceHost this;
     m_callRefRoutine := m_callRefRoutine this;
     m_duplicateRefRoutine := m_duplicateRefRoutine this;
     m_deleteRefRoutine := r;
     m_stackTraceRoutine := m_stackTraceRoutine this;
     m_resultAsObjectRoutine := m_resultAsObjectRoutine this;
     m_boundaryRoutine := m_boundaryRoutine this;
     m_instanceId := m_instanceId this; m_nativesDir := m_nativesDir this;
     m_profilingMode := m_profilingMode this;
     m_nonExistentNatives := m_nonExistentNatives this;
     m_pendingBookmarks := m_pendingBookmarks this |}.

Definition with_stackTraceRoutine (r : std_function TStackTraceRoutine)
    (this : t) : t :=
  {| m_state := m_state this; m_resourceHost := m_resourceHost this;
     m_callRefRoutine := m_callRefRoutine this;
     m_duplicateRefRoutine := m_duplicateRefRoutine this;
     m_deleteRefRoutine := m_deleteRefRoutine this;
     m_stackTraceRoutine := r;
     m_resultAsObjectRoutine := m_resultAsObjectRoutine this;
     m_boundaryRoutine := m_boundaryRoutine this;
     m_instanceId := m_instanceId this; m_nativesDir := m_nativesDir this;
     m_profilingMode := m_profilingMode this;
     m_nonExistentNatives := m_nonExistentNatives this;
     m_pendingBookmarks := m_pendingBookmarks this |}.

Definition with_resultAsObjectRoutine (r : std_function TResultAsObjectRoutine)
    (this : t) : t :=
  {| m_state := m_state this; m_resourceHost := m_resourceHost this;
     m_callRefRoutine := m_callRefRoutine this;
     m_duplicateRefRoutine := m_duplicateRefRoutine this;
     m_deleteRefRoutine := m_deleteRefRoutine this;
     m_stackTraceRoutine := m_stackTraceRoutine this;
     m_resultAsObjectRoutine := r;
     m_boundaryRoutine := m_boundaryRoutine this;
     m_instanceId := m_instanceId this; m_nativesDir := m_nativesDir this;
     m_profilingMode := m_profilingMode this;
     m_nonExistentNatives := m_nonExistentNatives this;
     m_pendingBookmarks := m_pendingBookmarks this |}.

Definition with_boundaryRoutine (routine : Z) (this : t) : t :=
  {| m_state := m_state this; m_resourceHost := m_resourceHost this;
     m_callRefRoutine := m_callRefRoutine this;
     m_duplicateRefRoutine := m_duplicateRefRoutine this;
     m_deleteRefRoutine := m_deleteRefRoutine this;
     m_stackTraceRoutine := m_stackTraceRoutine this;
     m_resultAsObjectRoutine := m_resultAsObjectRoutine this;
     m_boundaryRoutine := routine;
     m_instanceId := m_instanceId this; m_nativesDir := m_nativesDir this;
     m_profilingMode := m_profilingMode this;
     m_nonExistentNatives := m_nonExistentNatives this;
     m_pendingBookmarks := m_pendingBookmarks this |}.

Definition with_profilingMode (mode : LuaProfilingMode.t) (this : t) : t :=
  {| m_state := m_state this; m_resourceHost := m_resourceHost this;
     m_callRefRoutine := m_callRefRoutine this;
     m_duplicateRefRoutine := m_duplicateRefRoutine this;
     m_deleteRefRoutine := m_deleteRefRoutine this;
     m_stackTraceRoutine := m_stackTraceRoutine this;
     m_resultAsObjectRoutine := m_resultAsObjectRoutine this;
     m_boundaryRoutine := m_boundaryRoutine this;
     m_instanceId := m_instanceId this; m_nativesDir := m_nativesDir this;
     m_profilingMode := mode;
     m_nonExistentNatives := m_nonExistentNatives this;
     m_pendingBookmarks := m_pendingBookmarks this |}.

Definition with_pendingBookmarks (pending : list (Z * Z)) (this : t) : t :=
  {| m_state := m_state this; m_resourceHost := m_resourceHost this;
     m_callRefRoutine := m_callRefRoutine this;
     m_duplicateRefRoutine := m_duplicateRefRoutine this;
     m_deleteRefRoutine := m_deleteRefRoutine this;
     m_stackTraceRoutine := m_stackTraceRoutine this;
     m_resultAsObjectRoutine := m_resultAsObjectRoutine this;
     m_boundaryRoutine := m_boundaryRoutine this;
     m_instanceId := m_instanceId this; m_nativesDir := m_nativesDir this;
     m_profilingMode := m_profilingMode this;
     m_nonExistentNatives := m_nonExistentNatives this;
     m_pendingBookmarks := pending |}.

Section Platform.

Variable LUA_USE_RPMALLOC : bool.

(** [<cstdlib>]: the value the process's [i]-th call to [rand()] returns
    (counting from 0). *)
Variable rand_output : nat → Z.

Definition rand : M Z :=
  let* w := get_world in
  modify_world (set_rand_calls (S (w_rand_calls w)));;
  ret (rand_output (w_rand_calls w)).

(** [LuaScriptRuntime()]: the members are initialised in declaration order
    ([m_state] by [LuaStateHolder()], the others by their default member
    initialisers), then the body draws the instance id. *)
Definition ctor : M t :=
  let* state := LuaStateHolder.ctor LUA_USE_RPMALLOC in
  let* id := rand in
  ret {| m_state := state; m_resourceHost := None;
         m_callRefRoutine := None; m_duplicateRefRoutine := None;
         m_deleteRefRoutine := None; m_stackTraceRoutine := None;
         m_resultAsObjectRoutine := None;
         m_boundaryRoutine := 0;
         m_instanceId := id; m_nativesDir := EmptyString;
         m_profilingMode := LuaProfilingMode.None;
         m_nonExistentNatives := ∅;
         m_pendingBookmarks := [] |}.

(** A process that constructs [n] runtimes, one after the other. *)
Fixpoint construct_many (n : nat) : M (list t) :=
  match n with
  | 0 => ret []
  | S n =>
      let* this := ctor in
      let* rest := construct_many n in
      ret (this :: rest)
  end.

(** Their instance ids, in construction order. *)
Definition instance_ids (n : nat) (w : World) : option (list Z) :=
  (λ r, map m_instanceId r.1) <$> construct_many n w.

End Platform.

Definition SetCallRefRoutine (routine : std_function TCallRefRoutine)
    (this : t) : t :=
  if negb (callable (m_callRefRoutine this))
  then with_callRefRoutine routine this
  else this.

Definition SetDuplicateRefRoutine (routine : std_function TDuplicateRefRoutine)
    (this : t) : t :=
  if negb (callable (m_duplicateRefRoutine this))
  then with_duplicateRefRoutine routine this
  else this.

Definition SetDeleteRefRoutine (routine : std_function TDeleteRefRoutine)
    (this : t) : t :=
  if negb (callable (m_deleteRefRoutine this))
  then with_deleteRefRoutine routine this
  else this.

Definition SetStackTraceRoutine (routine : std_function TStackTraceRoutine)
    (this : t) : t :=
  if negb (callable (m_stackTraceRoutine this))
  then with_stackTraceRoutine routine this
  else this.

Definition GetBoundaryRoutine (this : t) : Z := m_boundaryRoutine this.

Definition GetNonExistentNativesList (this : t) : gset N :=
  m_nonExistentNatives this.

(** [if (!m_boundaryRoutine)] on an [int]. *)
Definition SetBoundaryRoutine (routine : Z) (this : t) : t :=
  if (m_boundaryRoutine this =? 0)%Z
  then with_boundaryRoutine routine this
  else this.

Definition SetResultAsObjectRoutine
    (routine : std_function TResultAsObjectRoutine) (this : t) : t :=
  if negb (callable (m_resultAsObjectRoutine this))
  then with_resultAsObjectRoutine routine this
  else this.

Definition ResultAsObject (this : t) (L : lua_State_ptr) (object : string)
    : M unit :=
  match m_resultAsObjectRoutine this with
  | Some routine => routine L object
  | None => lua_pushnil L
  end.

Definition GetScriptHost2 (this : t) : option IScriptHostWithResourceData :=
  m_resourceHost this.

Definition emptyResourceName : c_str := Some EmptyString.

(** [m_resourceHost->GetResourceName(&resourceName)] dereferences
    [m_resourceHost]. *)
Definition GetResourceName (this : t) : M c_str :=
  let resourceName : c_str := None in
  match m_resourceHost this with
  | None => crash
  | Some host =>
      let resourceName := host_GetResourceName host resourceName in
      match resourceName with
      | None => ret emptyResourceName
      | Some _ => ret resourceName
      end
  end.

Definition GetNativesDir (this : t) : string := m_nativesDir this.

Definition GetState (this : t) : lua_State_ptr :=
  LuaStateHolder.Get (m_state this).

Definition GetPendingBookmarks (this : t) : list (Z * Z) :=
  m_pendingBookmarks this.

(** Modelled from the spec: the body of [IScriptProfiler_Tick] is not in the
    header.  [tick(begin)] drives the profiler state: [begin = true] moves
    None -> Setup -> Profiling, [begin = false] moves Profiling -> Shutdown ->
    None, and any other call leaves the state alone.  The result lists the
    values stored into [m_profilingMode], in order; the spec does not say what
    the returned [bool] is, so it is left out. *)
Definition IScriptProfiler_Tick (begin : bool) (this : t)
    : list LuaProfilingMode.t * t :=
  match m_profilingMode this, begin with
  | LuaProfilingMode.None, true =>
      let this := with_profilingMode LuaProfilingMode.Setup this in
      let this := with_profilingMode LuaProfilingMode.Profiling this in
      ([LuaProfilingMode.Setup; LuaProfilingMode.Profiling], this)
  | LuaProfilingMode.Profiling, false =>
      let this := with_profilingMode LuaProfilingMode.Shutdown this in
      let this := with_profilingMode LuaProfilingMode.None this in
      ([LuaProfilingMode.Shutdown; LuaProfilingMode.None], this)
  | _, _ => ([], this)
  end.

(** A pending bookmark is a pair (due time, bookmark identifier). *)
Definition due_time (e : Z * Z) : Z := e.1.
Definition bookmark_id (e : Z * Z) : Z := e.2.

(** The pending sequence is kept in time-then-insertion order: a new entry
    goes behind every entry that is due no later than it. *)
Fixpoint insert_pending (e : Z * Z) (pending : list (Z * Z)) : list (Z * Z) :=
  match pending with
  | [] => [e]
  | x :: rest =>
      if (due_time x <=? due_time e)%Z
      then x :: insert_pending e rest
      else e :: x :: rest
  end.

(** Modelled from the spec: the body of [ScheduleBookmarkSoon] is not in the
    header.  [scheduleSoon(bookmark, timeout)] inserts a pending entry keyed by
    the due time "now + timeout", ties broken by insertion order; [now] is the
    tick time of the call. *)
Definition ScheduleBookmarkSoon (now : Z) (bookmark timeout : Z) (this : t) : t :=
  with_pendingBookmarks
    (insert_pending ((now + timeout)%Z, bookmark) (m_pendingBookmarks this)) this.

(** Modelled from the spec: the body of [SchedulePendingBookmarks] is not in
    the header.  The drain scans the pending entries in order and dispatches
    every entry whose due time has elapsed at tick time [now]; entries not yet
    due remain queued.  The result lists the dispatched entries in dispatch
    order. *)
Definition SchedulePendingBookmarks (now : Z) (this : t) : list (Z * Z) * t :=
  let pending := m_pendingBookmarks this in
  (filter (λ e, (due_time e ≤ now)%Z) pending,
   with_pendingBookmarks (filter (λ e, (now < due_time e)%Z) pending) this).

End LuaScriptRuntime.

(** ** Sequences of calls *)

(** Calling the same member function with each argument in turn. *)
Definition calls {A S} (method : A → S → S) (args : list A) (this : S) : S :=
  foldl (λ s a, method a s) this args.

(** The first routine of a sequence that has a target ([None] when none has). *)
Fixpoint first_callable {F} (routines : list (std_function F)) : std_function F :=
  match routines with
  | [] => None
  | r :: rest => if callable r then r else first_callable rest
  end.

(** [get]/[set] is a write-once slot for routines: a call that finds a target
    in the slot changes nothing, and over any sequence of calls the slot ends
    up with the target it had or, when it had none, with the first routine of
    the sequence that has one. *)
Definition write_once {F} (get : LuaScriptRuntime.t → std_function F)
    (set : std_function F → LuaScriptRuntime.t → LuaScriptRuntime.t) : Prop :=
  (∀ routine this, callable (get this) = true → set routine this = this)
  ∧ (∀ routines this,
       get (calls set routines this)
       = if callable (get this) then get this else first_callable routines).

(** The first identifier of a sequence that is not zero (0 when all are). *)
Fixpoint first_nonzero (routines : list Z) : Z :=
  match routines with
  | [] => 0%Z
  | r :: rest => if (r =? 0)%Z then first_nonzero rest else r
  end.

(** The profiler's cycle. *)
Inductive profiler_edge : LuaProfilingMode.t → LuaProfilingMode.t → Prop :=
  | edge_setup : profiler_edge LuaProfilingMode.None LuaProfilingMode.Setup
  | edge_start : profiler_edge LuaProfilingMode.Setup LuaProfilingMode.Profiling
  | edge_shutdown :
      profiler_edge LuaProfilingMode.Profiling LuaProfilingMode.Shutdown
  | edge_done : profiler_edge LuaProfilingMode.Shutdown LuaProfilingMode.None.

(** [path m ms]: the modes [ms], taken in order from [m], follow the cycle. *)
Fixpoint path (m : LuaProfilingMode.t) (ms : list LuaProfilingMode.t) : Prop :=
  match ms with
  | [] => True
  | m' :: rest => profiler_edge m m' ∧ path m' rest
  end.

(** The profiler driven by a sequence of ticks: every value stored into
    [m_profilingMode], in order, and the runtime afterwards. *)
Fixpoint profiler_run (begins : list bool) (this : LuaScriptRuntime.t)
    : list LuaProfilingMode.t * LuaScriptRuntime.t :=
  match begins with
  | [] => ([], this)
  | b :: rest =>
      let '(stored, this) := LuaScriptRuntime.IScriptProfiler_Tick b this in
      let '(stored', this) := profiler_run rest this in
      (stored ++ stored', this)
  end.

(** The host's calls into the scheduler. *)
Inductive SchedulerCall : Type :=
  | CallScheduleBookmarkSoon (now bookmark timeout : Z)
  | CallSchedulePendingBookmarks (now : Z).

(** Running a sequence of scheduler calls: the log of the drains (tick time
    and entries dispatched, in dispatch order) and the runtime afterwards. *)
Fixpoint scheduler_run (cs : list SchedulerCall) (this : LuaScriptRuntime.t)
    : list (Z * list (Z * Z)) * LuaScriptRuntime.t :=
  match cs with
  | [] => ([], this)
  | CallScheduleBookmarkSoon now bookmark timeout :: rest =>
      scheduler_run rest
        (LuaScriptRuntime.ScheduleBookmarkSoon now bookmark timeout this)
  | CallSchedulePendingBookmarks now :: rest =>
      let '(dispatched, this) :=
        LuaScriptRuntime.SchedulePendingBookmarks now this in
      let '(log, this) := scheduler_run rest this in
      ((now, dispatched) :: log, this)
  end.

(** The entries scheduled by [cs] and not dispatched yet, in the order they
    were scheduled, on top of the undispatched entries [queue]. *)
Fixpoint arrivals (cs : list SchedulerCall) (queue : list (Z * Z))
    : list (Z * Z) :=
  match cs with
  | [] => queue
  | CallScheduleBookmarkSoon now bookmark timeout :: rest =>
      arrivals rest (queue ++ [((now + timeout)%Z, bookmark)])
  | CallSchedulePendingBookmarks now :: rest =>
      arrivals rest (filter (λ e, (now < LuaScriptRuntime.due_time e)%Z) queue)
  end.

(** Time-then-insertion order of [pending], for entries that arrived in the
    order [queue]: due times never decrease along [pending], and the entries
    due at one time are in [pending] in the order they arrived. *)
Definition due_le (e1 e2 : Z * Z) : Prop :=
  (LuaScriptRuntime.due_time e1 ≤ LuaScriptRuntime.due_time e2)%Z.

Definition due_at (d : Z) (l : list (Z * Z)) : list (Z * Z) :=
  filter (λ e, LuaScriptRuntime.due_time e = d) l.

Definition time_then_insertion (pending queue : list (Z * Z)) : Prop :=
  StronglySorted due_le pending ∧ ∀ d, due_at d pending = due_at d queue.

(** The mode the profiler is in after the values [stored] were stored, from
    mode [m]. *)
Definition final_mode (m : LuaProfilingMode.t) (stored : list LuaProfilingMode.t)
    : LuaProfilingMode.t :=
  default m (last stored).

(** ** A C runtime's [rand()]

    The generator of the Microsoft C runtime, in a process that never calls
    [srand]: [holdrand = holdrand * 214013 + 2531011] on 32 bits, starting from
    1, and [rand()] returns [(holdrand >> 16) & 0x7fff]; its [RAND_MAX] is
    [0x7fff]. *)
Definition msvcrt_holdrand (i : nat) : Z :=
  Nat.iter (S i) (λ h, ((h * 214013 + 2531011) mod 2 ^ 32)%Z) 1%Z.

Definition msvcrt_rand_output (i : nat) : Z :=
  Z.land (Z.shiftr (msvcrt_holdrand i) 16) 0x7fff.

Definition msvcrt_RAND_MAX : Z := 0x7fff.

(** A process with room for [limit] engine states in which nothing has run. *)
Definition fresh_world (limit : nat) : World :=
  {| w_states := ∅; w_heaps := ∅; w_limit := limit; w_rand_calls := 0 |}.

(** A sample runtime: the object [LuaScriptRuntime()] builds first in a fresh
    process. *)
Definition sample_holder : LuaStateHolder.t :=
  {| LuaStateHolder.m_state := Some 1%positive;
     LuaStateHolder.rpmalloc_data := None |}.

Definition sample_runtime : LuaScriptRuntime.t :=
  {| LuaScriptRuntime.m_state := sample_holder;
     LuaScriptRuntime.m_resourceHost := None;
     LuaScriptRuntime.m_callRefRoutine := None;
     LuaScriptRuntime.m_duplicateRefRoutine := None;
     LuaScriptRuntime.m_deleteRefRoutine := None;
     LuaScriptRuntime.m_stackTraceRoutine := None;
     LuaScriptRuntime.m_resultAsObjectRoutine := None;
     LuaScriptRuntime.m_boundaryRoutine := 0;
     LuaScriptRuntime.m_instanceId := 41;
     LuaScriptRuntime.m_nativesDir := EmptyString;
     LuaScriptRuntime.m_profilingMode := LuaProfilingMode.None;
     LuaScriptRuntime.m_nonExistentNatives := ∅;
     LuaScriptRuntime.m_pendingBookmarks := [] |}.

(** The world the sample runtime lives in. *)
Definition sample_world : World :=
  {| w_states :=
       {[ 1%positive :=
            {| es_frealloc := l_alloc; es_gckind := KGC_GEN; es_stack := [] |} ]};
     w_heaps := ∅; w_limit := 1; w_rand_calls := 1 |}.

(** ** Registration calls *)

(** A call to one of the six setters of the header, with its argument. *)
Inductive Registration : Type :=
  | CallSetCallRefRoutine
      (routine : std_function LuaScriptRuntime.TCallRefRoutine)
  | CallSetDuplicateRefRoutine
      (routine : std_function LuaScriptRuntime.TDuplicateRefRoutine)
  | CallSetDeleteRefRoutine
      (routine : std_function LuaScriptRuntime.TDeleteRefRoutine)
  | CallSetStackTraceRoutine
      (routine : std_function LuaScriptRuntime.TStackTraceRoutine)
  | CallSetResultAsObjectRoutine
      (routine : std_function LuaScriptRuntime.TResultAsObjectRoutine)
  | CallSetBoundaryRoutine (routine : Z).

Definition register (c : Registration) (this : LuaScriptRuntime.t)
    : LuaScriptRuntime.t :=
  match c with
  | CallSetCallRefRoutine r => LuaScriptRuntime.SetCallRefRoutine r this
  | CallSetDuplicateRefRoutine r =>
      LuaScriptRuntime.SetDuplicateRefRoutine r this
  | CallSetDeleteRefRoutine r => LuaScriptRuntime.SetDeleteRefRoutine r this
  | CallSetStackTraceRoutine r => LuaScriptRuntime.SetStackTraceRoutine r this
  | CallSetResultAsObjectRoutine r =>
      LuaScriptRuntime.SetResultAsObjectRoutine r this
  | CallSetBoundaryRoutine r => LuaScriptRuntime.SetBoundaryRoutine r this
  end.

(** The arguments a sequence of registration calls passes to each setter, in
    call order. *)
Definition callRef_args (cs : list Registration)
    : list (std_function LuaScriptRuntime.TCallRefRoutine) :=
  omap (λ c, match c with CallSetCallRefRoutine r => Some r | _ => None end) cs.

Definition duplicateRef_args (cs : list Registration)
    : list (std_function LuaScriptRuntime.TDuplicateRefRoutine) :=
  omap (λ c, match c with
             | CallSetDuplicateRefRoutine r => Some r
             | _ => None
             end) cs.

Definition deleteRef_args (cs : list Registration)
    : list (std_function LuaScriptRuntime.TDeleteRefRoutine) :=
  omap (λ c, match c with CallSetDeleteRefRoutine r => Some r | _ => None end) cs.

Definition stackTrace_args (cs : list Registration)
    : list (std_function LuaScriptRuntime.TStackTraceRoutine) :=
  omap (λ c, match c with CallSetStackTraceRoutine r => Some r | _ => None end) cs.

Definition resultAsObject_args (cs : list Registration)
    : list (std_function LuaScriptRuntime.TResultAsObjectRoutine) :=
  omap (λ c, match c with
             | CallSetResultAsObjectRoutine r => Some r
             | _ => None
             end) cs.

Definition boundary_args (cs : list Registration) : list Z :=
  omap (λ c, match c with CallSetBoundaryRoutine r => Some r | _ => None end) cs.

(** What a write-once routine slot holding [slot] holds after the routines
    [routines] were passed to its setter. *)
Definition slot_after {F} (slot : std_function F)
    (routines : list (std_function F)) : std_function F :=
  if callable slot then slot else first_callable routines.

(** All six slots are populated. *)
Definition configured (this : LuaScriptRuntime.t) : Prop :=
  callable (LuaScriptRuntime.m_callRefRoutine this) = true
  ∧ callable (LuaScriptRuntime.m_duplicateRefRoutine this) = true
  ∧ callable (LuaScriptRuntime.m_deleteRefRoutine this) = true
  ∧ callable (LuaScriptRuntime.m_stackTraceRoutine this) = true
  ∧ callable (LuaScriptRuntime.m_resultAsObjectRoutine this) = true
  ∧ LuaScriptRuntime.m_boundaryRoutine this ≠ 0%Z.

(** The engine state a freshly created Lua state is in once the holder's
    constructor has switched it to generational mode. *)
Definition generational_state (f : Allocator) : EngineState :=
  {| es_frealloc := f; es_gckind := KGC_GEN; es_stack := [] |}.

(** ** Proof steps *)

(** Running a computation of [M] on a process state. *)
Ltac run_engine :=
  unfold bind, ret, get_world, modify_world, crash in *; simpl in *.

(** A setter whose slot is known to be empty or populated. *)
Ltac setter_cases this :=
  intros ? this; destruct this; simpl; intros Hslot;
  unfold LuaScriptRuntime.SetCallRefRoutine,
    LuaScriptRuntime.SetDuplicateRefRoutine,
    LuaScriptRuntime.SetDeleteRefRoutine,
    LuaScriptRuntime.SetStackTraceRoutine,
    LuaScriptRuntime.SetResultAsObjectRoutine; simpl;
  by rewrite Hslot.

(** One registration call on a runtime, by cases on the call and on the
    slots. *)
Ltac register_cases :=
  let c := fresh "c" in
  let this := fresh "this" in
  intros c this; destruct c, this; simpl;
  unfold LuaScriptRuntime.SetCallRefRoutine,
    LuaScriptRuntime.SetDuplicateRefRoutine,
    LuaScriptRuntime.SetDeleteRefRoutine,
    LuaScriptRuntime.SetStackTraceRoutine,
    LuaScriptRuntime.SetResultAsObjectRoutine,
    LuaScriptRuntime.SetBoundaryRoutine, slot_after; simpl;
  repeat match goal with
         | |- context [callable ?f] => destruct f; simpl
         | |- context [(?z =? 0)%Z] => destruct (Z.eqb_spec z 0); simpl
         end; try done.

(** ** The sample process *)

Example msvcrt_rand_first :
  map msvcrt_rand_output (seq 0 5) = [41; 18467; 6334; 26500; 19169]%Z.
Proof. reflexivity. Qed.

Example sample_runtime_constructed :
  LuaScriptRuntime.ctor false msvcrt_rand_output (fresh_world 1)
  = Some (sample_runtime, sample_world).
Proof. vm_compute. reflexivity. Qed.

(** ** The engine-state holder *)

Lemma fresh_state_not_live (w : World) :
  w_states w !! fresh (dom (w_states w)) = None.
Proof. apply not_elem_of_dom, is_fresh. Qed.

Section HolderProofs.

Variable LUA_USE_RPMALLOC : bool.

Import LuaStateHolder.

(** What the constructor does when the engine can supply a state. *)
Lemma ctor_success (w : World) :
  size (w_states w) < w_limit w →
  let L := fresh (dom (w_states w)) in
  let heap := fresh (w_heaps w) in
  ctor LUA_USE_RPMALLOC w =
    if LUA_USE_RPMALLOC then
      Some ({| m_state := Some L; rpmalloc_data := Some heap |},
            set_states (insert L {| es_frealloc := Lua_rpmalloc heap;
                                    es_gckind := KGC_GEN; es_stack := [] |})
              (set_heaps (union {[heap]}) w))
    else
      Some ({| m_state := Some L; rpmalloc_data := None |},
            set_states (insert L {| es_frealloc := l_alloc;
                                    es_gckind := KGC_GEN; es_stack := [] |}) w).
Proof.
  intros Hroom. unfold ctor, lua_rpmalloc_state, luaL_newstate, lua_gc.
  destruct LUA_USE_RPMALLOC; run_engine;
    rewrite decide_True by done; simpl;
    rewrite lookup_insert_eq; simpl;
    unfold set_states; simpl; by rewrite insert_insert_eq.
Qed.

(** When the engine cannot supply a state the constructor passes a null state
    to [lua_gc]. *)
Lemma ctor_out_of_memory (w : World) :
  ¬ size (w_states w) < w_limit w → ctor LUA_USE_RPMALLOC w = None.
Proof.
  intros Hfull. unfold ctor, lua_rpmalloc_state, luaL_newstate, lua_gc.
  destruct LUA_USE_RPMALLOC; run_engine; by rewrite decide_False by done.
Qed.

(** C7: when the engine can supply a state, constructing a [LuaStateHolder]
    returns a holder of exactly one new engine state (the live states
    afterwards are the ones before plus that one, at an address that was not
    live), created on rpmalloc when [LUA_USE_RPMALLOC] is defined and on the
    default allocator otherwise, and in generational collector mode. *)
Theorem LuaStateHolder_ctor_one_generational_state (w : World) :
  size (w_states w) < w_limit w →
  ∃ this w' L st,
    ctor LUA_USE_RPMALLOC w = Some (this, w')
    ∧ m_state this = Some L
    ∧ w_states w !! L = None
    ∧ w_states w' = <[L := st]> (w_states w)
    ∧ size (w_states w') = S (size (w_states w))
    ∧ es_gckind st = KGC_GEN
    ∧ if LUA_USE_RPMALLOC then
        ∃ heap, es_frealloc st = Lua_rpmalloc heap
                ∧ rpmalloc_data this = Some heap
                ∧ (heap ∉ w_heaps w)
                ∧ w_heaps w' = {[heap]} ∪ w_heaps w
      else
        es_frealloc st = l_alloc
        ∧ rpmalloc_data this = None
        ∧ w_heaps w' = w_heaps w.
Proof.
  intros Hroom. pose proof (ctor_success w Hroom) as Hctor. simpl in Hctor.
  pose proof (fresh_state_not_live w) as Hfresh.
  destruct LUA_USE_RPMALLOC; (do 4 eexists); (split; [exact Hctor |]); simpl;
    (repeat split; try done; try by apply map_size_insert_None).
  eexists. repeat split. apply is_fresh.
Qed.

(** [Close] on a holder that owns no state does nothing. *)
Lemma Close_closed (this : t) (w : World) :
  m_state this = None → Close LUA_USE_RPMALLOC this w = Some (this, w).
Proof. intros Hnull. unfold Close. by rewrite Hnull. Qed.

(** After a [Close] that returned, the holder owns no state. *)
Lemma Close_releases (this this' : t) (w w' : World) :
  Close LUA_USE_RPMALLOC this w = Some (this', w') → m_state this' = None.
Proof.
  unfold Close, lua_close, lua_rpmalloc_free.
  destruct (m_state this) as [l|] eqn:Hstate; run_engine.
  - destruct (w_states w !! l); [| done].
    destruct LUA_USE_RPMALLOC; simpl.
    + destruct (rpmalloc_data this) as [heap|]; simpl.
      * case_decide; [| done]. by intros [= <- _].
      * by intros [= <- _].
    + by intros [= <- _].
  - by intros [= <- _].
Qed.

(** A holder the constructor returned can be closed, and closing it gives back
    exactly what the constructor took. *)
Lemma Close_after_ctor (this : t) (w0 w : World) :
  ctor LUA_USE_RPMALLOC w0 = Some (this, w) →
  ∃ w',
    Close LUA_USE_RPMALLOC this w
    = Some ({| m_state := None; rpmalloc_data := None |}, w')
    ∧ w_states w' = w_states w0 ∧ w_heaps w' = w_heaps w0.
Proof.
  intros Hctor.
  destruct (decide (size (w_states w0) < w_limit w0)) as [Hroom|Hfull];
    [| by rewrite ctor_out_of_memory in Hctor].
  pose proof (ctor_success w0 Hroom) as Hok. simpl in Hok.
  rewrite Hctor in Hok.
  pose proof (fresh_state_not_live w0) as Hfresh.
  pose proof (is_fresh (w_heaps w0)) as Hheap.
  unfold Close, lua_close, lua_rpmalloc_free.
  destruct LUA_USE_RPMALLOC; injection Hok as Hthis Hw; subst this w;
    run_engine;
    rewrite lookup_insert_eq; simpl.
  - rewrite decide_True by (apply elem_of_union_l, elem_of_singleton_2; done).
    simpl. eexists. split; [done |]. simpl.
    split; [by apply delete_insert_id |].
    apply set_eq. intros x.
    rewrite elem_of_difference, elem_of_union, elem_of_singleton.
    split; [tauto |]. intros Hx. split; [tauto |]. by intros ->.
  - eexists. split; [done |]. simpl. split; [by apply delete_insert_id | done].
Qed.

(** C3: [Close] is idempotent and destruction closes the state.  On a holder
    that owns no state [Close] changes nothing; once a [Close] has returned, the
    holder owns no state, a second [Close] (and the destructor) returns and
    changes neither the holder nor the process state, so that closing twice is
    closing once; the destructor does what [Close] does; and a holder the
    constructor returned can be closed. *)
Theorem LuaStateHolder_Close_idempotent (this : t) (w : World) :
  (m_state this = None → Close LUA_USE_RPMALLOC this w = Some (this, w))
  ∧ (∀ this1 w1,
       Close LUA_USE_RPMALLOC this w = Some (this1, w1) →
       m_state this1 = None
       ∧ Close LUA_USE_RPMALLOC this1 w1 = Some (this1, w1)
       ∧ dtor LUA_USE_RPMALLOC this1 w1 = Some (tt, w1))
  ∧ (let* this1 := Close LUA_USE_RPMALLOC this in
     Close LUA_USE_RPMALLOC this1) w
    = Close LUA_USE_RPMALLOC this w
  ∧ dtor LUA_USE_RPMALLOC this w
    = (λ r, (tt, r.2)) <$> Close LUA_USE_RPMALLOC this w
  ∧ (∀ w0, ctor LUA_USE_RPMALLOC w0 = Some (this, w) →
       ∃ this1 w1, Close LUA_USE_RPMALLOC this w = Some (this1, w1)
                   ∧ w_states w1 = w_states w0 ∧ w_heaps w1 = w_heaps w0).
Proof.
  split; [apply Close_closed |].
  assert (Hagain : ∀ this1 w1,
    Close LUA_USE_RPMALLOC this w = Some (this1, w1) →
    m_state this1 = None ∧ Close LUA_USE_RPMALLOC this1 w1 = Some (this1, w1)).
  { intros this1 w1 Hclose. pose proof (Close_releases _ _ _ _ Hclose).
    split; [done | by apply Close_closed]. }
  split; [| split; [| split]].
  - intros this1 w1 Hclose. destruct (Hagain _ _ Hclose) as [Hnull Hnoop].
    repeat split; try done. unfold dtor. run_engine. by rewrite Hnoop.
  - unfold bind at 1.
    destruct (Close LUA_USE_RPMALLOC this w) as [[this1 w1]|] eqn:Hclose;
      [| done].
    by apply Hagain.
  - unfold dtor. run_engine.
    by destruct (Close LUA_USE_RPMALLOC this w) as [[this1 w1]|].
  - intros w0 Hctor. destruct (Close_after_ctor _ _ _ Hctor) as (w1 & ? & ? & ?).
    eauto.
Qed.

End HolderProofs.

Lemma LuaStateHolder_ctor_one_generational_state_witness :
  let w := fresh_world 1 in
  ∃ this w' L st,
    LuaStateHolder.ctor true w = Some (this, w')
    ∧ LuaStateHolder.m_state this = Some L
    ∧ w_states w !! L = None
    ∧ w_states w' = <[L := st]> (w_states w)
    ∧ size (w_states w') = S (size (w_states w))
    ∧ es_gckind st = KGC_GEN
    ∧ ∃ heap, es_frealloc st = Lua_rpmalloc heap
              ∧ LuaStateHolder.rpmalloc_data this = Some heap
              ∧ (heap ∉ w_heaps w)
              ∧ w_heaps w' = {[heap]} ∪ w_heaps w.
Proof.
  apply (LuaStateHolder_ctor_one_generational_state true (fresh_world 1)).
  vm_compute. lia.
Defined.

Lemma LuaStateHolder_Close_idempotent_witness :
  let closed :=
    {| LuaStateHolder.m_state := None; LuaStateHolder.rpmalloc_data := None |} in
  let w1 := set_states (delete 1%positive) sample_world in
  LuaStateHolder.Close false sample_holder sample_world = Some (closed, w1)
  ∧ LuaStateHolder.Close false closed w1 = Some (closed, w1)
  ∧ LuaStateHolder.dtor false closed w1 = Some (tt, w1).
Proof.
  intros closed w1.
  assert (Hclose : LuaStateHolder.Close false sample_holder sample_world
                   = Some (closed, w1)) by (vm_compute; reflexivity).
  split; [exact Hclose |].
  apply (proj1 (proj2 (LuaStateHolder_Close_idempotent false sample_holder
                         sample_world)) closed w1 Hclose).
Defined.

(** ** Set-once slots *)

Import LuaScriptRuntime.

Lemma write_once_intro {F} (get : t → std_function F)
    (set : std_function F → t → t) :
  (∀ routine this, callable (get this) = true → set routine this = this) →
  (∀ routine this, callable (get this) = false →
     get (set routine this) = routine) →
  write_once get set.
Proof.
  intros Hkeep Hstore. split; [done |].
  induction routines as [| r rest IH]; intros this; simpl.
  - by destruct (get this).
  - rewrite IH. destruct (callable (get this)) eqn:Hslot.
    + by rewrite Hkeep, Hslot.
    + rewrite Hstore by done. destruct (callable r) eqn:Hr; [done |].
      destruct r; [done |]. by destruct (first_callable rest).
Qed.

(** C2 (as amended): each of the injected routine setters is a no-op when its
    slot already holds a routine with a target, and for every sequence of calls
    to the same setter the slot ends up with the target it already had or,
    when it had none, with the first routine passed that has a target (an
    empty routine passed first populates nothing, and a later call still
    registers). *)
Theorem routine_setters_write_once :
  write_once m_callRefRoutine SetCallRefRoutine
  ∧ write_once m_duplicateRefRoutine SetDuplicateRefRoutine
  ∧ write_once m_deleteRefRoutine SetDeleteRefRoutine
  ∧ write_once m_stackTraceRoutine SetStackTraceRoutine
  ∧ write_once m_resultAsObjectRoutine SetResultAsObjectRoutine.
Proof.
  repeat split; apply write_once_intro; setter_cases this.
Qed.

Lemma routine_setters_write_once_witness :
  m_duplicateRefRoutine
    (calls SetDuplicateRefRoutine
       [None; Some (λ ref, ret ref); Some (λ ref, ret (ref + 1)%Z)]
       sample_runtime)
  = Some (λ ref, ret ref).
Proof.
  exact (proj2 (proj1 (proj2 routine_setters_write_once))
           [None; Some (λ ref, ret ref); Some (λ ref, ret (ref + 1)%Z)]
           sample_runtime).
Defined.

(** C2 (as stated) fails: on a runtime whose duplicate-ref slot is empty, a
    first call that passes an empty routine populates nothing, and the second
    call is not a no-op: it registers its routine. *)
Lemma routine_setter_first_call_does_not_win :
  let first := SetDuplicateRefRoutine None sample_runtime in
  let second := SetDuplicateRefRoutine (Some (λ ref, ret ref)) first in
  m_duplicateRefRoutine first = None
  ∧ second ≠ first
  ∧ m_duplicateRefRoutine
      (calls SetDuplicateRefRoutine [None; Some (λ ref, ret ref)] sample_runtime)
    ≠ None.
Proof.
  simpl. repeat split; [| done].
  intros Heq. apply (f_equal m_duplicateRefRoutine) in Heq. discriminate Heq.
Qed.

(** ** The boundary routine *)

Lemma SetBoundaryRoutine_populated (routine : Z) (this : t) :
  m_boundaryRoutine this ≠ 0%Z → SetBoundaryRoutine routine this = this.
Proof.
  intros Hset. unfold SetBoundaryRoutine.
  by destruct (Z.eqb_spec (m_boundaryRoutine this) 0).
Qed.

Lemma SetBoundaryRoutine_unpopulated (routine : Z) (this : t) :
  m_boundaryRoutine this = 0%Z →
  m_boundaryRoutine (SetBoundaryRoutine routine this) = routine.
Proof. intros Hzero. unfold SetBoundaryRoutine. by rewrite Hzero. Qed.

Lemma SetBoundaryRoutine_calls (routines : list Z) (this : t) :
  GetBoundaryRoutine (calls SetBoundaryRoutine routines this)
  = if (m_boundaryRoutine this =? 0)%Z then first_nonzero routines
    else m_boundaryRoutine this.
Proof.
  revert this. induction routines as [| r rest IH]; intros this; simpl.
  - unfold GetBoundaryRoutine.
    by destruct (Z.eqb_spec (m_boundaryRoutine this) 0).
  - rewrite IH. destruct (Z.eqb_spec (m_boundaryRoutine this) 0) as [Hz|Hnz].
    + rewrite SetBoundaryRoutine_unpopulated by done.
      by destruct (Z.eqb_spec r 0).
    + rewrite SetBoundaryRoutine_populated by done.
      by destruct (Z.eqb_spec (m_boundaryRoutine this) 0).
Qed.

(** C4 (as amended): the boundary routine identifier is recorded once it is
    nonzero.  A call that finds a nonzero identifier stored changes nothing,
    so no sequence of later calls overwrites it; and for every sequence of
    calls on a runtime with no identifier stored yet (0, as constructed),
    [GetBoundaryRoutine] returns the first nonzero identifier passed. *)
Theorem SetBoundaryRoutine_first_nonzero_wins (routines : list Z) (this : t) :
  (m_boundaryRoutine this ≠ 0%Z →
     ∀ routine, SetBoundaryRoutine routine this = this)
  ∧ (m_boundaryRoutine this ≠ 0%Z →
     calls SetBoundaryRoutine routines this = this)
  ∧ (m_boundaryRoutine this = 0%Z →
     GetBoundaryRoutine (calls SetBoundaryRoutine routines this)
     = first_nonzero routines).
Proof.
  split; [| split].
  - intros Hset routine. by apply SetBoundaryRoutine_populated.
  - intros Hset. induction routines as [| r rest IH]; simpl; [done |].
    by rewrite SetBoundaryRoutine_populated.
  - intros Hzero. by rewrite SetBoundaryRoutine_calls, Hzero.
Qed.

Lemma SetBoundaryRoutine_first_nonzero_wins_witness :
  SetBoundaryRoutine 9 (SetBoundaryRoutine 7 sample_runtime)
  = SetBoundaryRoutine 7 sample_runtime
  ∧ GetBoundaryRoutine (calls SetBoundaryRoutine [0; 7; 9]%Z sample_runtime)
    = 7%Z.
Proof.
  split.
  - apply (SetBoundaryRoutine_first_nonzero_wins []
             (SetBoundaryRoutine 7 sample_runtime)); simpl; lia.
  - apply (SetBoundaryRoutine_first_nonzero_wins [0; 7; 9]%Z sample_runtime).
    reflexivity.
Defined.

(** C4 (as stated) fails: after [SetBoundaryRoutine(0)] the getter returns 0,
    and the later call [SetBoundaryRoutine(7)] overwrites it. *)
Lemma SetBoundaryRoutine_first_call_does_not_win :
  GetBoundaryRoutine (calls SetBoundaryRoutine [0]%Z sample_runtime) = 0%Z
  ∧ GetBoundaryRoutine (calls SetBoundaryRoutine [0; 7]%Z sample_runtime)
    ≠ 0%Z.
Proof. split; [reflexivity | discriminate]. Qed.

(** C10: the guard of [SetBoundaryRoutine] tests the stored value against
    zero.  On a runtime with 0 stored (as constructed), [SetBoundaryRoutine(0)]
    changes nothing and leaves the slot unpopulated, and a following call with
    a nonzero identifier records that identifier. *)
Theorem SetBoundaryRoutine_zero_leaves_unpopulated (routine : Z) (this : t) :
  m_boundaryRoutine this = 0%Z →
  routine ≠ 0%Z →
  SetBoundaryRoutine 0 this = this
  ∧ GetBoundaryRoutine (SetBoundaryRoutine 0 this) = 0%Z
  ∧ GetBoundaryRoutine (SetBoundaryRoutine routine (SetBoundaryRoutine 0 this))
    = routine.
Proof.
  intros Hzero Hnz.
  assert (Hsame : SetBoundaryRoutine 0 this = this).
  { unfold SetBoundaryRoutine. rewrite Hzero. simpl.
    destruct this; simpl in *. by subst. }
  rewrite Hsame. unfold GetBoundaryRoutine.
  by rewrite SetBoundaryRoutine_unpopulated.
Qed.

Lemma SetBoundaryRoutine_zero_leaves_unpopulated_witness :
  SetBoundaryRoutine 0 sample_runtime = sample_runtime
  ∧ GetBoundaryRoutine (SetBoundaryRoutine 0 sample_runtime) = 0%Z
  ∧ GetBoundaryRoutine
      (SetBoundaryRoutine 7 (SetBoundaryRoutine 0 sample_runtime)) = 7%Z.
Proof.
  apply (SetBoundaryRoutine_zero_leaves_unpopulated 7 sample_runtime);
    [reflexivity | lia].
Defined.

(** ** Delegation to the host *)

(** C8: with no result-as-object routine injected, [ResultAsObject] is
    [lua_pushnil]: on a live state it returns, having pushed nil onto that
    state's stack and changed nothing else; with a routine injected, it is that
    routine applied to the given state and object string. *)
Theorem ResultAsObject_routine_or_nil (this : t) (L : lua_State_ptr)
    (object : string) (w : World) :
  (m_resultAsObjectRoutine this = None →
     ResultAsObject this L object w = lua_pushnil L w
     ∧ ∀ l st, L = Some l → w_states w !! l = Some st →
         ResultAsObject this L object w
         = Some (tt, set_states (insert l
                   {| es_frealloc := es_frealloc st; es_gckind := es_gckind st;
                      es_stack := LUA_TNIL :: es_stack st |}) w))
  ∧ (∀ routine, m_resultAsObjectRoutine this = Some routine →
       ResultAsObject this L object w = routine L object w).
Proof.
  unfold ResultAsObject. split.
  - intros ->. split; [done |]. intros l st -> Hlive.
    unfold lua_pushnil. run_engine. by rewrite Hlive.
  - by intros routine ->.
Qed.

Lemma ResultAsObject_routine_or_nil_witness :
  ResultAsObject sample_runtime (Some 1%positive) "obj" sample_world
  = Some (tt, set_states (insert 1%positive
            {| es_frealloc := l_alloc; es_gckind := KGC_GEN;
               es_stack := [LUA_TNIL] |}) sample_world).
Proof.
  apply (ResultAsObject_routine_or_nil sample_runtime (Some 1%positive) "obj"
           sample_world); reflexivity.
Defined.

(** C9: [GetResourceName] never returns a null pointer.  Whatever the runtime
    and the process state, a call that returns does not return null; and with
    a resource host attached the call returns: the name the host wrote, or the
    empty string when the host wrote none. *)
Theorem GetResourceName_never_null (this : t) (w : World) :
  (∀ w', GetResourceName this w ≠ Some (None, w'))
  ∧ (∀ host, m_resourceHost this = Some host →
       (host_GetResourceName host None = None →
          GetResourceName this w = Some (Some EmptyString, w))
       ∧ (∀ name, host_GetResourceName host None = Some name →
            GetResourceName this w = Some (Some name, w))).
Proof.
  unfold GetResourceName. split.
  - intros w'. destruct (m_resourceHost this) as [host|]; [| done].
    by destruct (host_GetResourceName host None).
  - intros host ->. split; [by intros -> | by intros name ->].
Qed.

Lemma GetResourceName_never_null_witness :
  let host := {| host_GetResourceName := λ out, out |} in
  let this :=
    {| m_state := sample_holder; m_resourceHost := Some host;
       m_callRefRoutine := None; m_duplicateRefRoutine := None;
       m_deleteRefRoutine := None; m_stackTraceRoutine := None;
       m_resultAsObjectRoutine := None; m_boundaryRoutine := 0;
       m_instanceId := 41; m_nativesDir := EmptyString;
       m_profilingMode := LuaProfilingMode.None; m_nonExistentNatives := ∅;
       m_pendingBookmarks := [] |} in
  GetResourceName this sample_world = Some (Some EmptyString, sample_world).
Proof.
  intros host this.
  destruct (proj2 (GetResourceName_never_null this sample_world) host)
    as [Hnull _]; [reflexivity |].
  apply Hnull. reflexivity.
Defined.

(** ** Instance ids *)

Lemma msvcrt_rand_range (i : nat) :
  (0 ≤ msvcrt_rand_output i ≤ msvcrt_RAND_MAX)%Z.
Proof.
  unfold msvcrt_rand_output, msvcrt_RAND_MAX.
  change 0x7fff%Z with (Z.ones 15). rewrite Z.land_ones by done.
  pose proof (Z.mod_pos_bound (msvcrt_holdrand i ≫ 16) (2 ^ 15)) as Hb.
  change (Z.ones 15) with (2 ^ 15 - 1)%Z. lia.
Qed.

Section InstanceIds.

Variable LUA_USE_RPMALLOC : bool.
Variable RAND_MAX : Z.
Variable rand_output : nat → Z.

(** [rand()] returns a value between 0 and [RAND_MAX]. *)
Hypothesis rand_range : ∀ i, (0 ≤ rand_output i ≤ RAND_MAX)%Z.

Lemma ctor_instanceId (w w' : World) (this : t) :
  ctor LUA_USE_RPMALLOC rand_output w = Some (this, w') →
  m_instanceId this = rand_output (w_rand_calls w)
  ∧ w_rand_calls w' = S (w_rand_calls w).
Proof.
  unfold ctor, rand. unfold bind at 1.
  destruct (decide (size (w_states w) < w_limit w)) as [Hroom|Hfull].
  - pose proof (ctor_success LUA_USE_RPMALLOC w Hroom) as Hok.
    simpl in Hok. rewrite Hok.
    destruct LUA_USE_RPMALLOC; run_engine; by intros [= <- <-].
  - by rewrite ctor_out_of_memory.
Qed.

(** C1 (as amended): the instance id of a runtime is the value [rand()]
    returned in its constructor, a number between 0 and [RAND_MAX]; the ids of
    two runtimes differ exactly when the two draws differ, which nothing
    ensures: among any [RAND_MAX + 2] runtimes constructed in whatever process
    states, two have the same id. *)
Theorem instanceId_is_rand_draw :
  (∀ w w' this,
     ctor LUA_USE_RPMALLOC rand_output w = Some (this, w') →
     m_instanceId this = rand_output (w_rand_calls w)
     ∧ (0 ≤ m_instanceId this ≤ RAND_MAX)%Z
     ∧ w_rand_calls w' = S (w_rand_calls w))
  ∧ (∀ w1 w1' this1 w2 w2' this2,
       ctor LUA_USE_RPMALLOC rand_output w1 = Some (this1, w1') →
       ctor LUA_USE_RPMALLOC rand_output w2 = Some (this2, w2') →
       m_instanceId this1 ≠ m_instanceId this2
       ↔ rand_output (w_rand_calls w1) ≠ rand_output (w_rand_calls w2))
  ∧ (∀ runtimes : list t,
       Forall (λ this, ∃ w w',
         ctor LUA_USE_RPMALLOC rand_output w = Some (this, w')) runtimes →
       (RAND_MAX + 1 < Z.of_nat (length runtimes))%Z →
       ¬ NoDup (map m_instanceId runtimes)).
Proof.
  split; [| split].
  - intros w w' this Hctor. destruct (ctor_instanceId _ _ _ Hctor) as [-> ->].
    auto.
  - intros w1 w1' this1 w2 w2' this2 H1 H2.
    destruct (ctor_instanceId _ _ _ H1) as [-> _].
    by destruct (ctor_instanceId _ _ _ H2) as [-> _].
  - intros runtimes Hbuilt Hmany Hnodup.
    pose proof (rand_range 0) as Hmax.
    assert (Hin : ∀ id, id ∈ map m_instanceId runtimes →
                         id ∈ seqZ 0 (RAND_MAX + 1)).
    { intros id (this & -> & Hthis)%list_elem_of_fmap.
      rewrite Forall_forall in Hbuilt.
      destruct (Hbuilt this Hthis) as (w & w' & Hctor).
      destruct (ctor_instanceId _ _ _ Hctor) as [-> _].
      apply elem_of_seqZ. pose proof (rand_range (w_rand_calls w)). lia. }
    pose proof (submseteq_length _ _ (NoDup_submseteq _ _ Hnodup Hin)) as Hlen.
    rewrite length_map, length_seqZ in Hlen. lia.
Qed.

End InstanceIds.

Lemma instanceId_is_rand_draw_witness :
  m_instanceId sample_runtime = msvcrt_rand_output 0
  ∧ (0 ≤ m_instanceId sample_runtime ≤ msvcrt_RAND_MAX)%Z
  ∧ w_rand_calls sample_world = 1.
Proof.
  apply (proj1 (instanceId_is_rand_draw false msvcrt_RAND_MAX
                  msvcrt_rand_output msvcrt_rand_range)
           (fresh_world 1) sample_world sample_runtime).
  exact sample_runtime_constructed.
Defined.

(** C1 (as stated) fails: in a process on the Microsoft C runtime that
    constructs 349 runtimes, the 341st and the 349th have the same instance
    id, 4313. *)
Lemma instanceId_not_unique :
  ∃ ids,
    instance_ids false msvcrt_rand_output 349 (fresh_world 349) = Some ids
    ∧ ids !! 340 = Some 4313%Z
    ∧ ids !! 348 = Some 4313%Z
    ∧ ¬ NoDup ids.
Proof.
  eexists. split; [vm_compute; reflexivity |].
  assert (H340 : ∀ l : list Z, l !! 340 = Some 4313%Z → l !! 348 = Some 4313%Z →
                   ¬ NoDup l).
  { intros l Ha Hb Hnodup.
    by pose proof (NoDup_lookup _ _ _ _ Hnodup Ha Hb). }
  split; [vm_compute; reflexivity |]. split; [vm_compute; reflexivity |].
  by apply H340.
Qed.

(** ** The profiler state *)

Lemma final_mode_cons (m m' : LuaProfilingMode.t) (l : list LuaProfilingMode.t) :
  final_mode m (m' :: l) = final_mode m' l.
Proof.
  unfold final_mode. revert m m'.
  induction l as [| x l IH]; intros m m'; [done |].
  change (last (m' :: x :: l)) with (last (x :: l)).
  by rewrite (IH m x), (IH m' x).
Qed.

Lemma path_app (m : LuaProfilingMode.t) (l1 l2 : list LuaProfilingMode.t) :
  path m l1 → path (final_mode m l1) l2 → path m (l1 ++ l2).
Proof.
  revert m. induction l1 as [| m' l1 IH]; intros m; simpl; [done |].
  intros [Hedge Hpath] Hrest. split; [done |]. apply IH; [done |].
  by rewrite <- (final_mode_cons m).
Qed.

Lemma final_mode_app (m : LuaProfilingMode.t) (l1 l2 : list LuaProfilingMode.t) :
  final_mode m (l1 ++ l2) = final_mode (final_mode m l1) l2.
Proof.
  unfold final_mode. destruct l2 as [| x l2 _] using rev_ind.
  - by rewrite app_nil_r.
  - by rewrite app_assoc, !last_snoc.
Qed.

Lemma IScriptProfiler_Tick_path (begin : bool) (this : t) :
  path (m_profilingMode this) (IScriptProfiler_Tick begin this).1
  ∧ m_profilingMode (IScriptProfiler_Tick begin this).2
    = final_mode (m_profilingMode this) (IScriptProfiler_Tick begin this).1.
Proof.
  unfold IScriptProfiler_Tick.
  destruct (m_profilingMode this) eqn:Hmode, begin; simpl;
    repeat split; try done; constructor.
Qed.

Lemma profiler_run_path (begins : list bool) (this : t) :
  path (m_profilingMode this) (profiler_run begins this).1
  ∧ m_profilingMode (profiler_run begins this).2
    = final_mode (m_profilingMode this) (profiler_run begins this).1.
Proof.
  revert this. induction begins as [| b rest IH]; intros this; simpl; [done |].
  pose proof (IScriptProfiler_Tick_path b this) as [Hpath Hmode].
  destruct (IScriptProfiler_Tick b this) as [stored this1]. simpl in *.
  specialize (IH this1). destruct (profiler_run rest this1) as [stored' this2].
  simpl in *. destruct IH as [Hpath' Hmode']. split.
  - apply path_app; [done |]. by rewrite <- Hmode.
  - by rewrite final_mode_app, <- Hmode.
Qed.

(** C6: driven by any sequence of [IScriptProfiler_Tick] calls, the values
    stored into the profiler state follow None -> Setup -> Profiling ->
    Shutdown -> None edge by edge, and the state is the last value stored.
    [begin = true] takes None to Profiling through Setup and [begin = false]
    takes Profiling to None through Shutdown; [begin = true] while Profiling
    and [begin = false] while None store nothing and leave the runtime as it
    is. *)
Theorem IScriptProfiler_Tick_follows_cycle (begins : list bool) (this : t) :
  path (m_profilingMode this) (profiler_run begins this).1
  ∧ m_profilingMode (profiler_run begins this).2
    = final_mode (m_profilingMode this) (profiler_run begins this).1
  ∧ (m_profilingMode this = LuaProfilingMode.None →
       (IScriptProfiler_Tick true this).1
       = [LuaProfilingMode.Setup; LuaProfilingMode.Profiling]
       ∧ m_profilingMode (IScriptProfiler_Tick true this).2
         = LuaProfilingMode.Profiling)
  ∧ (m_profilingMode this = LuaProfilingMode.Profiling →
       (IScriptProfiler_Tick false this).1
       = [LuaProfilingMode.Shutdown; LuaProfilingMode.None]
       ∧ m_profilingMode (IScriptProfiler_Tick false this).2
         = LuaProfilingMode.None)
  ∧ (m_profilingMode this = LuaProfilingMode.Profiling →
       IScriptProfiler_Tick true this = ([], this))
  ∧ (m_profilingMode this = LuaProfilingMode.None →
       IScriptProfiler_Tick false this = ([], this)).
Proof.
  pose proof (profiler_run_path begins this) as [Hpath Hmode].
  split; [done |]. split; [done |]. unfold IScriptProfiler_Tick.
  split; [by intros -> |]. split; [by intros -> |].
  split; by intros ->.
Qed.

Lemma IScriptProfiler_Tick_follows_cycle_witness :
  (profiler_run [true; true; false; false; true] sample_runtime).1
  = [LuaProfilingMode.Setup; LuaProfilingMode.Profiling;
     LuaProfilingMode.Shutdown; LuaProfilingMode.None;
     LuaProfilingMode.Setup; LuaProfilingMode.Profiling]
  ∧ path LuaProfilingMode.None
      (profiler_run [true; true; false; false; true] sample_runtime).1
  ∧ IScriptProfiler_Tick false sample_runtime = ([], sample_runtime).
Proof.
  pose proof (IScriptProfiler_Tick_follows_cycle
                [true; true; false; false; true] sample_runtime)
    as (Hpath & _ & _ & _ & _ & Hnoop).
  split; [reflexivity |]. split; [exact Hpath |]. apply Hnoop. reflexivity.
Defined.

(** ** The bookmark scheduler *)

Lemma elem_of_insert_pending (x e : Z * Z) (l : list (Z * Z)) :
  x ∈ insert_pending e l ↔ x = e ∨ x ∈ l.
Proof.
  induction l as [| y l IH]; simpl.
  - rewrite list_elem_of_singleton, elem_of_nil. tauto.
  - destruct (due_time y <=? due_time e)%Z;
      rewrite !elem_of_cons; [rewrite IH |]; tauto.
Qed.

Lemma insert_pending_sorted (e : Z * Z) (l : list (Z * Z)) :
  StronglySorted due_le l → StronglySorted due_le (insert_pending e l).
Proof.
  induction 1 as [| y l Hsorted IH Hall]; simpl.
  - by repeat constructor.
  - destruct (Z.leb_spec (due_time y) (due_time e)) as [Hle|Hlt].
    + constructor; [done |]. apply Forall_forall.
      intros x [->|Hx]%elem_of_insert_pending; [done |].
      rewrite Forall_forall in Hall. by apply Hall.
    + constructor; [by constructor |]. constructor.
      * unfold due_le. lia.
      * eapply Forall_impl; [exact Hall |]. unfold due_le. intros x Hx. lia.
Qed.

Lemma due_at_later (d : Z) (l : list (Z * Z)) :
  Forall (λ y, (d < due_time y)%Z) l → due_at d l = [].
Proof.
  unfold due_at. induction 1 as [| y l Hy Hall IH]; [done |].
  rewrite filter_cons_False by lia. done.
Qed.

Lemma due_at_app (d : Z) (l1 l2 : list (Z * Z)) :
  due_at d (l1 ++ l2) = due_at d l1 ++ due_at d l2.
Proof. apply filter_app. Qed.

Lemma due_at_cons (d : Z) (x : Z * Z) (l : list (Z * Z)) :
  due_at d (x :: l) = due_at d [x] ++ due_at d l.
Proof. apply (due_at_app d [x] l). Qed.

(** A new entry goes behind the entries with its due time. *)
Lemma due_at_insert_pending (d : Z) (e : Z * Z) (l : list (Z * Z)) :
  StronglySorted due_le l →
  due_at d (insert_pending e l) = due_at d l ++ due_at d [e].
Proof.
  induction 1 as [| y l Hsorted IH Hall]; simpl; [done |].
  destruct (Z.leb_spec (due_time y) (due_time e)) as [Hle|Hlt].
  - by rewrite (due_at_cons d y), IH, (due_at_cons d y l), (assoc_L (++)).
  - rewrite (due_at_cons d e). destruct (decide (due_time e = d)) as [<-|Hne].
    + rewrite (due_at_later (due_time e) (y :: l)); [by rewrite app_nil_r |].
      constructor; [done |]. eapply Forall_impl; [exact Hall |].
      unfold due_le. intros x Hx. lia.
    + unfold due_at at 1. rewrite filter_cons_False by done.
      unfold due_at at 3. rewrite filter_cons_False by done.
      by rewrite filter_nil, app_nil_r.
Qed.

Lemma due_at_filter (d : Z) (P : Z → Prop) `{!∀ z, Decision (P z)}
    (l : list (Z * Z)) :
  due_at d (filter (λ e, P (due_time e)) l)
  = if decide (P d) then due_at d l else [].
Proof.
  unfold due_at. rewrite list_filter_filter. case_decide as HP.
  - apply list_filter_iff. intros x. split; [tauto |]. intros <-. tauto.
  - induction l as [| x l IH]; [done |].
    rewrite filter_cons_False; [done |]. intros [<- HPx]. tauto.
Qed.

Lemma filter_sorted (P : Z * Z → Prop) `{!∀ e, Decision (P e)}
    (l : list (Z * Z)) :
  StronglySorted due_le l → StronglySorted due_le (filter P l).
Proof.
  induction 1 as [| y l Hsorted IH Hall]; [constructor |].
  rewrite filter_cons. case_decide; [| done].
  constructor; [done |]. apply Forall_forall.
  intros x [_ Hx]%list_elem_of_filter. rewrite Forall_forall in Hall. auto.
Qed.

Lemma time_then_insertion_schedule (pending queue : list (Z * Z)) (e : Z * Z) :
  time_then_insertion pending queue →
  time_then_insertion (insert_pending e pending) (queue ++ [e]).
Proof.
  intros [Hsorted Hsame]. split; [by apply insert_pending_sorted |].
  intros d. by rewrite due_at_insert_pending, due_at_app, Hsame.
Qed.

Lemma time_then_insertion_filter (P : Z → Prop) `{!∀ z, Decision (P z)}
    (pending queue : list (Z * Z)) :
  time_then_insertion pending queue →
  time_then_insertion (filter (λ e, P (due_time e)) pending)
                      (filter (λ e, P (due_time e)) queue).
Proof.
  intros [Hsorted Hsame]. split; [by apply filter_sorted |].
  intros d. by rewrite !(due_at_filter d P), Hsame.
Qed.

Lemma scheduler_run_drain (now : Z) (cs : list SchedulerCall) (this : t) :
  scheduler_run (CallSchedulePendingBookmarks now :: cs) this
  = ((now, (SchedulePendingBookmarks now this).1)
       :: (scheduler_run cs (SchedulePendingBookmarks now this).2).1,
     (scheduler_run cs (SchedulePendingBookmarks now this).2).2).
Proof.
  simpl. by destruct (scheduler_run cs _).
Qed.

Lemma arrivals_app (cs1 cs2 : list SchedulerCall) (queue : list (Z * Z)) :
  arrivals (cs1 ++ cs2) queue = arrivals cs2 (arrivals cs1 queue).
Proof.
  revert queue. induction cs1 as [| [now b T | now] cs1 IH]; intros queue;
    simpl; by rewrite ?IH.
Qed.

(** The pending sequence stays in time-then-insertion order. *)
Lemma scheduler_run_order (cs : list SchedulerCall) (this : t)
    (queue : list (Z * Z)) :
  time_then_insertion (m_pendingBookmarks this) queue →
  time_then_insertion (m_pendingBookmarks (scheduler_run cs this).2)
                      (arrivals cs queue).
Proof.
  revert this queue.
  induction cs as [| [now b T | now] cs IH]; intros this queue Hinv.
  - done.
  - simpl. apply IH. simpl. by apply time_then_insertion_schedule.
  - rewrite scheduler_run_drain. simpl. apply IH. simpl.
    by apply (time_then_insertion_filter (λ d, (now < d)%Z)).
Qed.

(** No drain dispatches an entry before its due time. *)
Lemma scheduler_run_never_early (cs : list SchedulerCall) (this : t)
    (now : Z) (dispatched : list (Z * Z)) :
  (now, dispatched) ∈ (scheduler_run cs this).1 →
  Forall (λ e, (due_time e ≤ now)%Z) dispatched.
Proof.
  revert this. induction cs as [| [now' b T | now'] cs IH]; intros this.
  - simpl. by intros ?%elem_of_nil.
  - simpl. apply IH.
  - rewrite scheduler_run_drain. simpl.
    intros [[= -> ->] | Hlater]%elem_of_cons; [| by eapply IH].
    apply Forall_forall. by intros e [Hdue _]%list_elem_of_filter.
Qed.

(** An entry stays pending through the drains that come before its due
    time. *)
Lemma scheduler_run_keeps (cs : list SchedulerCall) (this : t) (e : Z * Z) :
  e ∈ m_pendingBookmarks this →
  (∀ now, CallSchedulePendingBookmarks now ∈ cs → (now < due_time e)%Z) →
  e ∈ m_pendingBookmarks (scheduler_run cs this).2.
Proof.
  revert this. induction cs as [| [now b T | now] cs IH]; intros this He Hcs.
  - done.
  - simpl. apply IH.
    + simpl. apply elem_of_insert_pending. by right.
    + intros now' Hin. apply Hcs. by right.
  - rewrite scheduler_run_drain. simpl. apply IH.
    + simpl. apply list_elem_of_filter. split; [| done]. apply Hcs. by left.
    + intros now' Hin. apply Hcs. by right.
Qed.

Lemma scheduler_run_log_calls (cs : list SchedulerCall) (this : t)
    (now : Z) (dispatched : list (Z * Z)) :
  (now, dispatched) ∈ (scheduler_run cs this).1 →
  CallSchedulePendingBookmarks now ∈ cs.
Proof.
  revert this. induction cs as [| [now' b T | now'] cs IH]; intros this.
  - simpl. by intros ?%elem_of_nil.
  - simpl. intros Hin. right. by eapply IH.
  - rewrite scheduler_run_drain. simpl.
    intros [[= -> _] | Hlater]%elem_of_cons; [by left |]. right. by eapply IH.
Qed.

(** C5: a bookmark scheduled with [timeout] at tick time [t0], after any
    history of scheduler calls on a runtime that started with nothing pending,
    is not dispatched by any drain before [t0 + timeout] (no drain dispatches
    an entry before its due time) and is still pending after those drains; the
    first drain at a tick time of at least [t0 + timeout] dispatches it and
    removes it.  That drain dispatches exactly the pending entries that are
    due, in non-decreasing due time, and the entries due at one time in the
    order they were scheduled. *)
Theorem bookmark_dispatched_at_first_due_drain
    (hist later : list SchedulerCall) (this0 : t) (t0 bookmark timeout now : Z) :
  m_pendingBookmarks this0 = [] →
  (∀ now', CallSchedulePendingBookmarks now' ∈ later →
     (now' < t0 + timeout)%Z) →
  (t0 + timeout ≤ now)%Z →
  let e := ((t0 + timeout)%Z, bookmark) in
  let this1 := (scheduler_run hist this0).2 in
  let this2 := ScheduleBookmarkSoon t0 bookmark timeout this1 in
  let log := (scheduler_run later this2).1 in
  let this3 := (scheduler_run later this2).2 in
  let dispatched := (SchedulePendingBookmarks now this3).1 in
  let this4 := (SchedulePendingBookmarks now this3).2 in
  (∀ now' ds, (now', ds) ∈ log →
     Forall (λ x, (due_time x ≤ now')%Z) ds ∧ e ∉ ds)
  ∧ (e ∈ m_pendingBookmarks this3)
  ∧ (e ∈ dispatched)
  ∧ (e ∉ m_pendingBookmarks this4)
  ∧ (∀ x, x ∈ dispatched ↔ x ∈ m_pendingBookmarks this3 ∧ (due_time x ≤ now)%Z)
  ∧ (∀ x, x ∈ m_pendingBookmarks this4
          ↔ x ∈ m_pendingBookmarks this3 ∧ (now < due_time x)%Z)
  ∧ StronglySorted due_le dispatched
  ∧ (∀ d, due_at d dispatched
          = due_at d (filter (λ x, (due_time x ≤ now)%Z)
                        (arrivals
                           (hist ++ CallScheduleBookmarkSoon t0 bookmark timeout
                                 :: later) []))).
Proof.
  intros Hempty Hearly Hdue e this1 this2 log this3 dispatched this4.
  assert (Hpending : e ∈ m_pendingBookmarks this3).
  { apply scheduler_run_keeps; [| done].
    simpl. apply elem_of_insert_pending. by left. }
  assert (Horder : time_then_insertion (m_pendingBookmarks this3)
            (arrivals (hist ++ CallScheduleBookmarkSoon t0 bookmark timeout
                            :: later) [])).
  { rewrite arrivals_app. simpl. apply scheduler_run_order. simpl.
    apply time_then_insertion_schedule, scheduler_run_order.
    rewrite Hempty. split; [constructor | done]. }
  apply (time_then_insertion_filter (λ d, (d ≤ now)%Z)) in Horder
    as [Hsorted Hsame].
  split; [| split; [| split; [| split; [| split; [| split; [| split]]]]]];
    try done.
  - intros now' ds Hlog.
    pose proof (scheduler_run_never_early _ _ _ _ Hlog) as Hds.
    split; [done |]. intros Hin. rewrite Forall_forall in Hds.
    specialize (Hds e Hin). simpl in Hds.
    pose proof (Hearly now' (scheduler_run_log_calls _ _ _ _ Hlog)). lia.
  - subst dispatched. simpl. by apply list_elem_of_filter.
  - subst this4. simpl. intros [Hlate _]%list_elem_of_filter.
    simpl in Hlate. lia.
  - intros x. subst dispatched. simpl. rewrite list_elem_of_filter. tauto.
  - intros x. subst this4. simpl. rewrite list_elem_of_filter. tauto.
Qed.

Lemma bookmark_dispatched_at_first_due_drain_witness :
  let hist := [CallScheduleBookmarkSoon 0 8 100; CallScheduleBookmarkSoon 0 9 40;
               CallSchedulePendingBookmarks 5]%Z in
  let later := [CallSchedulePendingBookmarks 20; CallScheduleBookmarkSoon 20 6 5;
                CallSchedulePendingBookmarks 39]%Z in
  let this2 :=
    ScheduleBookmarkSoon 10 7 30 (scheduler_run hist sample_runtime).2 in
  let this3 := (scheduler_run later this2).2 in
  (scheduler_run later this2).1 = [(20, []); (39, [(25, 6)])]%Z
  ∧ (SchedulePendingBookmarks 40 this3).1 = [(40, 9); (40, 7)]%Z
  ∧ ((40, 7)%Z ∈ (SchedulePendingBookmarks 40 this3).1)
  ∧ ((40, 7)%Z ∉ m_pendingBookmarks (SchedulePendingBookmarks 40 this3).2).
Proof.
  intros hist later this2 this3.
  assert (Hearly : ∀ now', CallSchedulePendingBookmarks now' ∈ later →
                           (now' < 10 + 30)%Z).
  { intros now' Hin. subst later.
    repeat (apply elem_of_cons in Hin as [Heq | Hin];
            [try discriminate Heq; injection Heq as ->; lia |]).
    by apply elem_of_nil in Hin. }
  pose proof (bookmark_dispatched_at_first_due_drain hist later sample_runtime
                10 7 30 40 eq_refl Hearly ltac:(lia))
    as (_ & _ & Hdispatched & Hremoved & _).
  split; [reflexivity |]. split; [reflexivity |]. split; assumption.
Defined.

(** ** Interleaved registrations *)

Lemma slot_after_cons {F} (slot r : std_function F)
    (routines : list (std_function F)) :
  slot_after (slot_after slot [r]) routines = slot_after slot (r :: routines).
Proof.
  unfold slot_after. simpl. destruct slot as [f|]; simpl; [done |].
  destruct r as [f|]; simpl; [done |]. by destruct (first_callable routines).
Qed.

Lemma slot_after_nil {F} (slot : std_function F) : slot_after slot [] = slot.
Proof. by destruct slot. Qed.

(** A slot read through interleaved registration calls, given what one call
    does to it. *)
Lemma slot_registrations {F} (get : t → std_function F)
    (arg : Registration → option (std_function F)) :
  (∀ c this, get (register c this)
             = match arg c with
               | Some r => slot_after (get this) [r]
               | None => get this
               end) →
  ∀ cs this, get (calls register cs this) = slot_after (get this) (omap arg cs).
Proof.
  intros Hstep. induction cs as [| c cs IH]; intros this; simpl.
  - by rewrite slot_after_nil.
  - rewrite IH, Hstep. destruct (arg c) as [r|]; [| done].
    apply slot_after_cons.
Qed.

Lemma boundary_registrations (cs : list Registration) (this : t) :
  m_boundaryRoutine (calls register cs this)
  = if (m_boundaryRoutine this =? 0)%Z then first_nonzero (boundary_args cs)
    else m_boundaryRoutine this.
Proof.
  revert this. induction cs as [| c cs IH]; intros this; simpl.
  - by destruct (Z.eqb_spec (m_boundaryRoutine this) 0).
  - rewrite IH. revert c this. register_cases.
Qed.

(** The members no setter writes. *)
Lemma register_frame (c : Registration) (this : t) :
  m_state (register c this) = m_state this
  ∧ m_resourceHost (register c this) = m_resourceHost this
  ∧ m_instanceId (register c this) = m_instanceId this
  ∧ m_nativesDir (register c this) = m_nativesDir this
  ∧ m_profilingMode (register c this) = m_profilingMode this
  ∧ m_nonExistentNatives (register c this) = m_nonExistentNatives this
  ∧ m_pendingBookmarks (register c this) = m_pendingBookmarks this.
Proof. revert c this. register_cases. Qed.

Lemma registrations_frame (cs : list Registration) (this : t) :
  m_state (calls register cs this) = m_state this
  ∧ m_resourceHost (calls register cs this) = m_resourceHost this
  ∧ m_instanceId (calls register cs this) = m_instanceId this
  ∧ m_nativesDir (calls register cs this) = m_nativesDir this
  ∧ m_profilingMode (calls register cs this) = m_profilingMode this
  ∧ m_nonExistentNatives (calls register cs this) = m_nonExistentNatives this
  ∧ m_pendingBookmarks (calls register cs this) = m_pendingBookmarks this.
Proof.
  revert this. induction cs as [| c cs IH]; intros this; simpl; [done |].
  destruct (IH (register c this)) as (-> & -> & -> & -> & -> & -> & ->).
  apply register_frame.
Qed.

Lemma resultAsObject_registrations (cs : list Registration) (this : t) :
  m_resultAsObjectRoutine (calls register cs this)
  = slot_after (m_resultAsObjectRoutine this) (resultAsObject_args cs).
Proof.
  revert cs this. apply slot_registrations. register_cases.
Qed.

(** X1: the setters do not interfere.  Whatever the order in which calls to
    the six setters are interleaved, each routine slot ends up with the target
    it already held or else the first non-empty routine passed to its own
    setter, the boundary routine with the nonzero identifier it already held
    or else the first nonzero identifier passed, and the engine state, the
    resource host, the instance id, the natives directory, the profiler state,
    the non-existent natives and the pending bookmarks are as they were. *)
Theorem registrations_do_not_interfere (cs : list Registration) (this : t) :
  let this' := calls register cs this in
  m_callRefRoutine this'
  = slot_after (m_callRefRoutine this) (callRef_args cs)
  ∧ m_duplicateRefRoutine this'
    = slot_after (m_duplicateRefRoutine this) (duplicateRef_args cs)
  ∧ m_deleteRefRoutine this'
    = slot_after (m_deleteRefRoutine this) (deleteRef_args cs)
  ∧ m_stackTraceRoutine this'
    = slot_after (m_stackTraceRoutine this) (stackTrace_args cs)
  ∧ m_resultAsObjectRoutine this'
    = slot_after (m_resultAsObjectRoutine this) (resultAsObject_args cs)
  ∧ GetBoundaryRoutine this'
    = (if (m_boundaryRoutine this =? 0)%Z then first_nonzero (boundary_args cs)
       else m_boundaryRoutine this)
  ∧ m_state this' = m_state this
  ∧ m_resourceHost this' = m_resourceHost this
  ∧ m_instanceId this' = m_instanceId this
  ∧ m_nativesDir this' = m_nativesDir this
  ∧ m_profilingMode this' = m_profilingMode this
  ∧ m_nonExistentNatives this' = m_nonExistentNatives this
  ∧ m_pendingBookmarks this' = m_pendingBookmarks this.
Proof.
  simpl.
  split; [revert cs this; apply slot_registrations; register_cases |].
  split; [revert cs this; apply slot_registrations; register_cases |].
  split; [revert cs this; apply slot_registrations; register_cases |].
  split; [revert cs this; apply slot_registrations; register_cases |].
  split; [apply resultAsObject_registrations |].
  split; [apply boundary_registrations |].
  apply registrations_frame.
Qed.

(** X2: a runtime with all six slots populated is closed to registration: no
    sequence of setter calls changes anything in it. *)
Theorem configured_runtime_is_frozen (cs : list Registration) (this : t) :
  configured this → calls register cs this = this.
Proof.
  intros (H1 & H2 & H3 & H4 & H5 & H6).
  induction cs as [| c cs IH]; simpl; [done |].
  assert (Hc : register c this = this); [| by rewrite Hc].
  destruct c; simpl;
    unfold SetCallRefRoutine, SetDuplicateRefRoutine, SetDeleteRefRoutine,
      SetStackTraceRoutine, SetResultAsObjectRoutine;
    rewrite ?H1, ?H2, ?H3, ?H4, ?H5; try done.
  by apply SetBoundaryRoutine_populated.
Qed.

(** X3: result-as-object conversions go to the first non-empty routine
    registered.  After any interleaved sequence of setter calls,
    [ResultAsObject] invokes the routine the slot already held or else the
    first non-empty routine passed to [SetResultAsObjectRoutine], and pushes
    nil when there is none; routines registered later are never invoked. *)
Theorem ResultAsObject_after_registrations (cs : list Registration) (this : t)
    (L : lua_State_ptr) (object : string) :
  ResultAsObject (calls register cs this) L object
  = match slot_after (m_resultAsObjectRoutine this) (resultAsObject_args cs) with
    | Some routine => routine L object
    | None => lua_pushnil L
    end.
Proof.
  unfold ResultAsObject. by rewrite resultAsObject_registrations.
Qed.

(** ** Construction *)

Section Construction.

Variable LUA_USE_RPMALLOC : bool.
Variable rand_output : nat → Z.

(** What [LuaScriptRuntime()] returns when the engine can supply a state. *)
Lemma runtime_ctor_room (w : World) :
  size (w_states w) < w_limit w →
  let L := fresh (dom (w_states w)) in
  let heap := fresh (w_heaps w) in
  let f := if LUA_USE_RPMALLOC then Lua_rpmalloc heap else l_alloc in
  ctor LUA_USE_RPMALLOC rand_output w
  = Some ({| m_state :=
               {| LuaStateHolder.m_state := Some L;
                  LuaStateHolder.rpmalloc_data :=
                    if LUA_USE_RPMALLOC then Some heap else None |};
             m_resourceHost := None;
             m_callRefRoutine := None; m_duplicateRefRoutine := None;
             m_deleteRefRoutine := None; m_stackTraceRoutine := None;
             m_resultAsObjectRoutine := None; m_boundaryRoutine := 0;
             m_instanceId := rand_output (w_rand_calls w);
             m_nativesDir := EmptyString;
             m_profilingMode := LuaProfilingMode.None;
             m_nonExistentNatives := ∅; m_pendingBookmarks := [] |},
          set_rand_calls (S (w_rand_calls w))
            (set_states (insert L (generational_state f))
               (if LUA_USE_RPMALLOC then set_heaps (union {[heap]}) w else w))).
Proof.
  intros Hroom. simpl. unfold ctor, rand. unfold bind at 1.
  pose proof (ctor_success LUA_USE_RPMALLOC w Hroom) as Hok. simpl in Hok.
  rewrite Hok. by destruct LUA_USE_RPMALLOC.
Qed.

Lemma runtime_ctor_full (w : World) :
  ¬ size (w_states w) < w_limit w →
  ctor LUA_USE_RPMALLOC rand_output w = None.
Proof.
  intros Hfull. unfold ctor. unfold bind at 1.
  by rewrite ctor_out_of_memory.
Qed.

(** The process state after a construction. *)
Lemma runtime_ctor_world (w w' : World) (this : t) :
  ctor LUA_USE_RPMALLOC rand_output w = Some (this, w') →
  size (w_states w) < w_limit w
  ∧ m_instanceId this = rand_output (w_rand_calls w)
  ∧ w_rand_calls w' = S (w_rand_calls w)
  ∧ w_limit w' = w_limit w
  ∧ ∃ L f, GetState this = Some L
           ∧ w_states w !! L = None
           ∧ w_states w' = <[L := generational_state f]> (w_states w).
Proof.
  intros Hctor.
  destruct (decide (size (w_states w) < w_limit w)) as [Hroom|Hfull];
    [| by rewrite runtime_ctor_full in Hctor].
  pose proof (runtime_ctor_room w Hroom) as Hok. simpl in Hok.
  rewrite Hctor in Hok. injection Hok as Hthis Hw. subst this w'.
  split; [done |]. do 3 (split; [by destruct LUA_USE_RPMALLOC |]).
  exists (fresh (dom (w_states w))),
    (if LUA_USE_RPMALLOC then Lua_rpmalloc (fresh (w_heaps w)) else l_alloc).
  split; [done |]. split; [apply fresh_state_not_live |].
  by destruct LUA_USE_RPMALLOC.
Qed.

(** X4: the constructors do not check for a null engine state.  Both
    [LuaStateHolder()] and [LuaScriptRuntime()] return exactly when the engine
    can supply a state; when it cannot, [lua_gc] is called on the null state
    and the constructor does not return. *)
Theorem ctor_returns_iff_state_available (w : World) :
  (is_Some (LuaStateHolder.ctor LUA_USE_RPMALLOC w)
   ↔ size (w_states w) < w_limit w)
  ∧ (is_Some (ctor LUA_USE_RPMALLOC rand_output w)
     ↔ size (w_states w) < w_limit w).
Proof.
  destruct (decide (size (w_states w) < w_limit w)) as [Hroom|Hfull].
  - pose proof (ctor_success LUA_USE_RPMALLOC w Hroom) as Hholder.
    pose proof (runtime_ctor_room w Hroom) as Hruntime.
    simpl in Hholder, Hruntime. rewrite Hruntime.
    split; (split; [done | intros _]); [| done].
    rewrite Hholder. by destruct LUA_USE_RPMALLOC.
  - rewrite ctor_out_of_memory, runtime_ctor_full by done.
    split; (split; [by intros [? [=]] | done]).
Qed.

(** X5: a runtime as constructed.  When the engine can supply a state, the
    constructor returns a runtime whose [GetState] is an address that was not
    live and now holds an engine state in generational mode with an empty
    stack; every state that was live is untouched; the five routine slots are
    empty, the boundary routine is 0, no resource host is attached, the
    natives directory is empty, the profiler is off and nothing is pending;
    and exactly one value was drawn from [rand()]. *)
Theorem runtime_as_constructed (w : World) :
  size (w_states w) < w_limit w →
  ∃ this w' L f,
    ctor LUA_USE_RPMALLOC rand_output w = Some (this, w')
    ∧ GetState this = Some L
    ∧ w_states w !! L = None
    ∧ w_states w' !! L = Some (generational_state f)
    ∧ (∀ L', L' ≠ L → w_states w' !! L' = w_states w !! L')
    ∧ callable (m_callRefRoutine this) = false
    ∧ callable (m_duplicateRefRoutine this) = false
    ∧ callable (m_deleteRefRoutine this) = false
    ∧ callable (m_stackTraceRoutine this) = false
    ∧ callable (m_resultAsObjectRoutine this) = false
    ∧ GetBoundaryRoutine this = 0%Z
    ∧ GetScriptHost2 this = None
    ∧ GetNativesDir this = EmptyString
    ∧ m_profilingMode this = LuaProfilingMode.None
    ∧ GetPendingBookmarks this = []
    ∧ GetNonExistentNativesList this = ∅
    ∧ w_rand_calls w' = S (w_rand_calls w).
Proof.
  intros Hroom. pose proof (runtime_ctor_room w Hroom) as Hok. simpl in Hok.
  eexists _, _, (fresh (dom (w_states w))),
    (if LUA_USE_RPMALLOC then Lua_rpmalloc (fresh (w_heaps w)) else l_alloc).
  split; [exact Hok |].
  split; [done |]. split; [apply fresh_state_not_live |].
  destruct LUA_USE_RPMALLOC; simpl.
  all: split; [by rewrite lookup_insert_eq |].
  all: split; [by intros L' HL'; rewrite lookup_insert_ne |].
  all: done.
Qed.

Lemma construct_many_cons (n : nat) (w w' : World) (rts : list t) :
  construct_many LUA_USE_RPMALLOC rand_output (S n) w = Some (rts, w') →
  ∃ this w1 rest,
    ctor LUA_USE_RPMALLOC rand_output w = Some (this, w1)
    ∧ construct_many LUA_USE_RPMALLOC rand_output n w1 = Some (rest, w')
    ∧ rts = this :: rest.
Proof.
  simpl. unfold bind at 1.
  destruct (ctor LUA_USE_RPMALLOC rand_output w) as [[this w1]|]; [| done].
  unfold bind at 1.
  destruct (construct_many LUA_USE_RPMALLOC rand_output n w1)
    as [[rest w2]|] eqn:Hrest; [| done].
  unfold ret. intros Heq. injection Heq as Hrts Hw. subst rts w'.
  by exists this, w1, rest.
Qed.

Lemma instance_ids_S (n : nat) (w : World) :
  instance_ids LUA_USE_RPMALLOC rand_output (S n) w
  = match ctor LUA_USE_RPMALLOC rand_output w with
    | Some (this, w1) =>
        cons (m_instanceId this)
          <$> instance_ids LUA_USE_RPMALLOC rand_output n w1
    | None => None
    end.
Proof.
  unfold instance_ids. simpl. unfold bind at 1.
  destruct (ctor LUA_USE_RPMALLOC rand_output w) as [[this w1]|]; [| done].
  unfold bind at 1.
  by destruct (construct_many LUA_USE_RPMALLOC rand_output n w1) as [[? ?]|].
Qed.

(** X6: the instance ids of runtimes constructed one after the other are
    consecutive draws of [rand()]: constructing [n] runtimes returns when the
    engine has room for [n] more states, with ids the next [n] values [rand()]
    returns, in order; with less room (and [n] not 0) it does not return. *)
Theorem instance_ids_consecutive_draws (n : nat) (w : World) :
  instance_ids LUA_USE_RPMALLOC rand_output n w
  = if decide (n = 0 ∨ size (w_states w) + n ≤ w_limit w)
    then Some (map rand_output (seq (w_rand_calls w) n))
    else None.
Proof.
  revert w. induction n as [| n IH]; intros w.
  - by rewrite decide_True by auto.
  - rewrite instance_ids_S.
    destruct (ctor LUA_USE_RPMALLOC rand_output w) as [[this w1]|] eqn:Hctor.
    + apply runtime_ctor_world in Hctor
        as (Hroom & -> & Hcalls & Hlimit & L & f & _ & Hfresh & Hw1).
      rewrite IH, Hcalls, Hlimit, Hw1, map_size_insert_None by done.
      repeat case_decide; try done; lia.
    + rewrite decide_False; [done |]. intros [[=] | Hroom].
      rewrite runtime_ctor_room in Hctor by lia. done.
Qed.

(** Constructions only add engine states, each at an address that was not
    live. *)
Lemma construct_many_states (n : nat) (w w' : World) (rts : list t) :
  construct_many LUA_USE_RPMALLOC rand_output n w = Some (rts, w') →
  w_states w ⊆ w_states w'
  ∧ Forall (λ this, ∃ L f, GetState this = Some L
                           ∧ w_states w !! L = None
                           ∧ w_states w' !! L = Some (generational_state f))
      rts
  ∧ NoDup (map GetState rts).
Proof.
  revert w w' rts. induction n as [| n IH]; intros w w' rts Hmany.
  - injection Hmany as <- <-. repeat split; [done | constructor..].
  - apply construct_many_cons in Hmany
      as (this & w1 & rest & Hctor & Hrest & ->).
    apply runtime_ctor_world in Hctor
      as (_ & _ & _ & _ & L & f & HL & Hfresh & Hw1).
    destruct (IH _ _ _ Hrest) as (Hsub & Hall & Hnodup).
    assert (Hsub1 : w_states w ⊆ w_states w1)
      by (rewrite Hw1; by apply insert_subseteq).
    assert (HLw1 : w_states w1 !! L = Some (generational_state f))
      by (by rewrite Hw1, lookup_insert_eq).
    split; [by etrans |]. split; [| simpl; constructor; [| done]].
    + constructor.
      * exists L, f. split; [done |]. split; [done |].
        by eapply lookup_weaken.
      * eapply Forall_impl; [exact Hall |].
        intros rt (L' & f' & ? & Hfresh' & ?). exists L', f'.
        split; [done |]. split; [| done].
        destruct (w_states w !! L') as [st|] eqn:Hlive; [| done].
        by rewrite (lookup_weaken _ _ _ _ Hlive Hsub1) in Hfresh'.
    + rewrite HL. intros (rt & Heq & Hrt)%list_elem_of_fmap.
      rewrite Forall_forall in Hall.
      destruct (Hall rt Hrt) as (L' & f' & HL' & Hfresh' & _).
      rewrite HL' in Heq. injection Heq as <-. congruence.
Qed.

(** X7: no two runtimes share an engine state.  The runtimes a process
    constructs one after the other have pairwise different [GetState]
    addresses, each not live before and holding a generational engine state
    afterwards, and the states that were live before are untouched. *)
Theorem constructed_runtimes_own_distinct_states (n : nat) (w w' : World)
    (rts : list t) :
  construct_many LUA_USE_RPMALLOC rand_output n w = Some (rts, w') →
  NoDup (map GetState rts)
  ∧ Forall (λ this, ∃ L f, GetState this = Some L
                           ∧ w_states w !! L = None
                           ∧ w_states w' !! L = Some (generational_state f))
      rts
  ∧ (∀ L st, w_states w !! L = Some st → w_states w' !! L = Some st).
Proof.
  intros (Hsub & Hall & Hnodup)%construct_many_states.
  split; [done |]. split; [done |].
  intros L st Hlive. by eapply lookup_weaken.
Qed.

(** X8: the setters never attach a resource host.  [GetResourceName] gives
    the same result before and after any sequence of setter calls; it
    dereferences a null [m_resourceHost] when none is attached, which is the
    case of every runtime as constructed, whatever is registered on it. *)
Theorem GetResourceName_unaffected_by_registrations (cs : list Registration)
    (this : t) (w w0 w1 : World) :
  GetResourceName (calls register cs this) w = GetResourceName this w
  ∧ (m_resourceHost this = None →
     GetResourceName (calls register cs this) w = None)
  ∧ (ctor LUA_USE_RPMALLOC rand_output w0 = Some (this, w1) →
     GetResourceName (calls register cs this) w = None).
Proof.
  assert (Hsame : GetResourceName (calls register cs this) w
                  = GetResourceName this w).
  { unfold GetResourceName.
    by destruct (registrations_frame cs this) as (_ & -> & _). }
  assert (Hnull : m_resourceHost this = None →
                  GetResourceName (calls register cs this) w = None).
  { intros Hhost. rewrite Hsame. unfold GetResourceName. by rewrite Hhost. }
  split; [done |]. split; [done |].
  intros Hctor. apply Hnull.
  destruct (decide (size (w_states w0) < w_limit w0)) as [Hroom|Hfull];
    [| by rewrite runtime_ctor_full in Hctor].
  pose proof (runtime_ctor_room w0 Hroom) as Hok. simpl in Hok.
  rewrite Hctor in Hok. injection Hok as Hthis _. by subst this.
Qed.

End Construction.

(** ** Releasing *)

Section Releasing.

Variable LUA_USE_RPMALLOC : bool.

(** X9: [Close] releases the holder's own state and nothing else.  On a holder
    of state [L], [Close] returns exactly when [L] is live (and, with rpmalloc,
    when the heap it recorded is live): it does not detect a state that was
    closed through another holder.  When it returns, [Get] is null, [L] is no
    longer live, every other engine state is untouched, the recorded rpmalloc
    heap is the only heap released, and nothing else in the process
    changed. *)
Theorem Close_releases_only_its_state (this : LuaStateHolder.t) (w : World)
    (L : positive) :
  LuaStateHolder.m_state this = Some L →
  (is_Some (LuaStateHolder.Close LUA_USE_RPMALLOC this w)
   ↔ is_Some (w_states w !! L)
     ∧ (LUA_USE_RPMALLOC = true →
        ∀ heap, LuaStateHolder.rpmalloc_data this = Some heap →
                heap ∈ w_heaps w))
  ∧ (∀ this' w',
       LuaStateHolder.Close LUA_USE_RPMALLOC this w = Some (this', w') →
       LuaStateHolder.Get this' = None
       ∧ w_states w' = delete L (w_states w)
       ∧ (∀ L', L' ≠ L → w_states w' !! L' = w_states w !! L')
       ∧ w_heaps w'
         = (if LUA_USE_RPMALLOC then
              match LuaStateHolder.rpmalloc_data this with
              | Some heap => w_heaps w ∖ {[heap]}
              | None => w_heaps w
              end
            else w_heaps w)
       ∧ w_limit w' = w_limit w
       ∧ w_rand_calls w' = w_rand_calls w).
Proof.
  intros Hstate.
  unfold LuaStateHolder.Close, lua_close, LuaStateHolder.lua_rpmalloc_free.
  rewrite Hstate. run_engine.
  destruct (w_states w !! L) as [st|] eqn:Hlive; simpl.
  - destruct LUA_USE_RPMALLOC; simpl.
    + destruct (LuaStateHolder.rpmalloc_data this) as [heap|]; simpl.
      * case_decide as Hheap; simpl.
        -- split.
           ++ split; [intros _ | done]. split; [done |].
              by intros _ heap' [= <-].
           ++ intros this' w' Heq. injection Heq as Hthis Hw. subst this' w'.
              simpl. repeat split; try done.
              intros L' HL'. by rewrite lookup_delete_ne.
        -- split; [| done]. split; [by intros [? [=]] |].
           intros [_ Hvalid]. exfalso. by apply Hheap, Hvalid.
      * split.
        -- split; [intros _ | done]. split; [done |]. by intros _ heap' [=].
        -- intros this' w' Heq. injection Heq as Hthis Hw. subst this' w'.
           simpl. repeat split; try done.
           intros L' HL'. by rewrite lookup_delete_ne.
    + split.
      * split; [intros _ | done]. split; [done |]. by intros [=].
      * intros this' w' Heq. injection Heq as Hthis Hw. subst this' w'.
        simpl. repeat split; try done.
        intros L' HL'. by rewrite lookup_delete_ne.
  - split; [| done]. split; [by intros [? [=]] |].
    by intros [[? [=]] _].
Qed.

End Releasing.

(** ** Instances *)

Lemma configured_runtime_is_frozen_witness :
  let this :=
    calls register
      [CallSetCallRefRoutine (Some (λ _ _, ret None));
       CallSetDuplicateRefRoutine (Some (λ ref, ret ref));
       CallSetDeleteRefRoutine (Some (λ _, ret tt));
       CallSetStackTraceRoutine (Some (λ _ _, ret []));
       CallSetResultAsObjectRoutine (Some (λ L _, lua_pushnil L));
       CallSetBoundaryRoutine 7] sample_runtime in
  calls register
    [CallSetBoundaryRoutine 9; CallSetDuplicateRefRoutine None;
     CallSetResultAsObjectRoutine (Some (λ _ _, ret tt))] this
  = this.
Proof.
  intros this. apply (configured_runtime_is_frozen _ this).
  repeat split; discriminate.
Defined.

Lemma runtime_as_constructed_witness :
  ∃ this w' L f,
    ctor true msvcrt_rand_output (fresh_world 1) = Some (this, w')
    ∧ GetState this = Some L
    ∧ w_states (fresh_world 1) !! L = None
    ∧ w_states w' !! L = Some (generational_state f)
    ∧ GetBoundaryRoutine this = 0%Z.
Proof.
  destruct (runtime_as_constructed true msvcrt_rand_output (fresh_world 1))
    as (this & w' & L & f & Hctor & HL & Hfresh & Hlive & _ & _ & _ & _ & _
        & _ & Hboundary & _); [vm_compute; lia |].
  by exists this, w', L, f.
Defined.

Lemma constructed_runtimes_own_distinct_states_witness :
  ∃ rts w',
    construct_many false msvcrt_rand_output 3 (fresh_world 3) = Some (rts, w')
    ∧ NoDup (map GetState rts).
Proof.
  destruct (construct_many false msvcrt_rand_output 3 (fresh_world 3))
    as [[rts w']|] eqn:Hmany; [| vm_compute in Hmany; discriminate Hmany].
  exists rts, w'. split; [reflexivity |].
  apply (constructed_runtimes_own_distinct_states false msvcrt_rand_output 3
           (fresh_world 3) w' rts Hmany).
Defined.

Lemma GetResourceName_unaffected_by_registrations_witness :
  GetResourceName
    (calls register [CallSetBoundaryRoutine 7] sample_runtime) sample_world
  = None.
Proof.
  apply (proj2 (proj2 (GetResourceName_unaffected_by_registrations false
                         msvcrt_rand_output [CallSetBoundaryRoutine 7]
                         sample_runtime sample_world (fresh_world 1)
                         sample_world))).
  exact sample_runtime_constructed.
Defined.

Lemma Close_releases_only_its_state_witness :
  is_Some (LuaStateHolder.Close false sample_holder sample_world)
  ∧ ∀ this' w',
      LuaStateHolder.Close false sample_holder sample_world = Some (this', w') →
      LuaStateHolder.Get this' = None ∧ w_states w' = ∅.
Proof.
  destruct (Close_releases_only_its_state false sample_holder sample_world
              1%positive eq_refl) as [Hreturns Heffect].
  split.
  - apply Hreturns. split; [by eexists | discriminate].
  - intros this' w' Hclose.
    destruct (Heffect this' w' Hclose) as (Hget & Hstates & _).
    split; [done |]. rewrite Hstates. apply map_eq. intros i.
    by destruct (decide (i = 1%positive)) as [->|];
      [rewrite lookup_delete_eq | rewrite lookup_delete_ne by done;
                                   apply lookup_singleton_ne].
Defined.
